(** * AdView: view-sizing reconciliation of the AppLovin MAX React Native
    banner / MREC component (src/AdView.tsx).

    The component is embedded as a state machine.  The hooks of the
    function component ([useRef], [useState], [useReducer]) are the fields
    of [State]; the promises it leaves outstanding are explicit queues; a
    render pass, the arrival of a native response, a call of the
    imperative handle and the unmount are the [Event]s.

    JavaScript numbers are only copied and compared for identity by this
    code, never computed with: they are modelled as integers, with [NaN]
    beside them because [===] tells it apart from every number and from
    itself. *)

From Stdlib Require Import ZArith Lia.
From stdpp Require Import base option list gmap strings pretty fin_maps.

Open Scope string_scope.

(** ** JavaScript values and objects *)

(** The values a style dimension, a size record field or a bridged
    argument can hold.  ['auto'] and percentages are strings; an element
    of a style array is held by reference and told by its index. *)
Inductive Value : Type :=
| VUndefined
| VNull
| VNum (n : Z)
| VNaN
| VStr (s : string)
| VElement (index : nat).

#[global] Instance Value_eq_dec : EqDecision Value.
Proof. solve_decision. Defined.

(** A plain object: own enumerable string keys.  A key may be present and
    hold [undefined]; that differs from an absent key for [Object.keys]. *)
Abbreviation JsObject := (gmap string Value).

(** [o.k]: reading an absent property yields [undefined]. *)
Definition get (o : JsObject) (k : string) : Value :=
  default VUndefined (o !! k).

(** [a === b] and [a !== b]: [NaN] is equal to nothing, not even to
    itself. *)
Definition strictEq (a b : Value) : bool :=
  match a, b with
  | VNaN, _ | _, VNaN => false
  | _, _ => bool_decide (a = b)
  end.
Definition strictNe (a b : Value) : bool := negb (strictEq a b).

(** [a ?? b]. *)
Definition coalesce (a b : Value) : Value :=
  match a with
  | VUndefined | VNull => b
  | _ => a
  end.

(** The object literal [{ width: w, height: h }]. *)
Definition sizeRecord (w h : Value) : JsObject :=
  <["width" := w]> {["height" := h]}.

(** [Object.keys(o).length]. *)
Definition keysLength (o : JsObject) : nat := size o.

Definition auto : Value := VStr "auto".

(** ** Style props *)

(** A style prop as the caller passes it: nothing ([undefined], [null] or
    [false]), a plain style object, or an array of style props. *)
#[warnings="-register-all"] Inductive StyleProp : Type :=
| StyleAbsent
| StyleObject (o : JsObject)
| StyleArray (elements : list StyleProp).

(** [StyleSheet.flatten] of React Native: nothing for nothing, a plain
    object as it is, and for an array the merge of its flattened
    elements, later ones overriding earlier ones. *)
Fixpoint flatten (style : StyleProp) : option JsObject :=
  match style with
  | StyleAbsent => None
  | StyleObject o => Some o
  | StyleArray elements =>
      Some (foldl (λ result element,
                     match flatten element with
                     | Some computed => computed ∪ result
                     | None => result
                     end) ∅ elements)
  end.

(** [style || {}]. *)
Definition orEmpty (style : StyleProp) : StyleProp :=
  match style with
  | StyleAbsent => StyleObject ∅
  | _ => style
  end.

(** [viewStyle?.k]. *)
Definition optGet (o : option JsObject) (k : string) : Value :=
  match o with
  | Some o => get o k
  | None => VUndefined
  end.

(** The flat object [getOutlineViewSize] reads the declared size from. *)
Definition flatStyle (style : StyleProp) : JsObject :=
  default ∅ (flatten (orEmpty style)).

(** The own enumerable properties of a style prop, which [Object.assign]
    copies: the keys of a plain object; for an array its indices, each
    holding the element itself. *)
Definition ownProperties (style : StyleProp) : JsObject :=
  match style with
  | StyleAbsent => ∅
  | StyleObject o => o
  | StyleArray elements =>
      list_to_map (imap (λ i _, (pretty i, VElement i)) elements)
  end.

(** [Object.assign({}, a, b)]: the keys of [b] override those of [a]; the
    style prop [a] is copied as it was passed, not flattened. *)
Definition assign (a : StyleProp) (b : JsObject) : JsObject :=
  b ∪ ownProperties a.

(** ** Formats and format sizes *)

Inductive AdFormat : Type := BANNER | MREC.

#[global] Instance AdFormat_eq_dec : EqDecision AdFormat.
Proof. solve_decision. Defined.

Record Size := { size_width : Z; size_height : Z }.

Record AdViewSize := { banner : Size; leader : Size; mrec : Size }.

Definition ADVIEW_SIZE : AdViewSize :=
  {| banner := {| size_width := 320; size_height := 50 |};
     leader := {| size_width := 728; size_height := 90 |};
     mrec := {| size_width := 300; size_height := 250 |} |}.

(** ** Style outline *)

(** [getOutlineViewSize]: the declared width and height of the flattened
    style, ['auto'] for an unspecified one. *)
Definition getOutlineViewSize (style : StyleProp) : Value * Value :=
  let viewStyle := flatten (orEmpty style) in
  (coalesce (optGet viewStyle "width") auto,
   coalesce (optGet viewStyle "height") auto).

(** ** Banner sizing *)

(** The promise returned by the async function [sizeForBannerFormat]:
    either it ran to its [return] without suspending, or it is suspended
    at [await AppLovinMAX.getAdaptiveBannerHeightForWidth(forWidth)] with
    [width] already computed; its continuation is [resume]. *)
Inductive SizePromise : Type :=
| Resolved (size : JsObject)
| AwaitHeight (forWidth : Z) (width : Value).

#[global] Instance SizePromise_eq_dec : EqDecision SizePromise.
Proof. solve_decision. Defined.

Definition sizeBannerDimensions (sizeProps : JsObject)
    (adaptiveBannerEnabled : bool) (screenWidth : Z)
    (bannerFormatSize : JsObject) : SizePromise :=
  let width :=
    if strictEq (get sizeProps "width") auto
    then VNum screenWidth else get sizeProps "width" in
  if strictEq (get sizeProps "height") auto then
    if adaptiveBannerEnabled then AwaitHeight screenWidth width
    else Resolved (sizeRecord width (get bannerFormatSize "height"))
  else Resolved (sizeRecord width (get sizeProps "height")).

(** The rest of [sizeForBannerFormat] after the awaited height arrived. *)
Definition resume (width height : Value) : JsObject :=
  sizeRecord width height.

(** The width a banner promise carries, settled or not. *)
Definition promisedWidth (p : SizePromise) : Value :=
  match p with
  | Resolved size => get size "width"
  | AwaitHeight _ width => width
  end.

(** The size a banner promise settles to when the native module answers
    height queries by [query]. *)
Definition settle (query : Z → Z) (p : SizePromise) : JsObject :=
  match p with
  | Resolved size => size
  | AwaitHeight forWidth width => resume width (VNum (query forWidth))
  end.

(** ** The mounted component *)

(** What a render pass receives: the props the sizing logic reads, and the
    window width that [useWindowDimensions] reports for that pass. *)
Record Props := {
  adFormat : AdFormat;
  adaptiveBannerEnabled : bool;
  style : StyleProp;
  screenWidth : Z
}.

(** A native view instance, as React hands it to a ref callback. *)
Definition Element := nat.

Record State := {
  (* hooks of the component *)
  adFormatSize : JsObject;          (* useRef<SizeRecord>({}) *)
  updates : nat;                    (* useReducer: forceUpdate dispatches *)
  adViewRef : option Element;       (* useRef<AdViewType | null>(null) *)
  isInitialized : bool;             (* useState<boolean>(false) *)
  sizeProps : JsObject;             (* useRef<SizeRecord>({}) *)
  dimensions : JsObject;            (* useRef<SizeRecord>({}) *)
  (* React bookkeeping *)
  mounted : bool;
  effectFormat : option AdFormat;   (* deps of the last run of the [adFormat] effect *)
  view : option Element;            (* native view currently in the tree *)
  created : nat;                    (* native views instantiated so far *)
  (* promises outstanding at the native module *)
  tabletQueries : nat;              (* isTablet() *)
  initQueries : nat;                (* isInitialized() *)
  heightQueries : list (Z * Value); (* suspended banner sizings: (forWidth, width) *)
  (* observable effects *)
  warnings : nat;                   (* console.warn calls *)
  commands : list Element           (* loadAd commands dispatched to the view manager *)
}.

Definition set_adFormatSize (x : JsObject) (st : State) : State :=
  let 'Build_State _ b c d e f g h i j k l m n o := st in
  Build_State x b c d e f g h i j k l m n o.
Definition set_updates (x : nat) (st : State) : State :=
  let 'Build_State a _ c d e f g h i j k l m n o := st in
  Build_State a x c d e f g h i j k l m n o.
Definition set_adViewRef (x : option Element) (st : State) : State :=
  let 'Build_State a b _ d e f g h i j k l m n o := st in
  Build_State a b x d e f g h i j k l m n o.
Definition set_isInitialized (x : bool) (st : State) : State :=
  let 'Build_State a b c _ e f g h i j k l m n o := st in
  Build_State a b c x e f g h i j k l m n o.
Definition set_sizeProps (x : JsObject) (st : State) : State :=
  let 'Build_State a b c d _ f g h i j k l m n o := st in
  Build_State a b c d x f g h i j k l m n o.
Definition set_dimensions (x : JsObject) (st : State) : State :=
  let 'Build_State a b c d e _ g h i j k l m n o := st in
  Build_State a b c d e x g h i j k l m n o.
Definition set_mounted (x : bool) (st : State) : State :=
  let 'Build_State a b c d e f _ h i j k l m n o := st in
  Build_State a b c d e f x h i j k l m n o.
Definition set_effectFormat (x : option AdFormat) (st : State) : State :=
  let 'Build_State a b c d e f g _ i j k l m n o := st in
  Build_State a b c d e f g x i j k l m n o.
Definition set_view (x : option Element) (st : State) : State :=
  let 'Build_State a b c d e f g h _ j k l m n o := st in
  Build_State a b c d e f g h x j k l m n o.
Definition set_created (x : nat) (st : State) : State :=
  let 'Build_State a b c d e f g h i _ k l m n o := st in
  Build_State a b c d e f g h i x k l m n o.
Definition set_tabletQueries (x : nat) (st : State) : State :=
  let 'Build_State a b c d e f g h i j _ l m n o := st in
  Build_State a b c d e f g h i j x l m n o.
Definition set_initQueries (x : nat) (st : State) : State :=
  let 'Build_State a b c d e f g h i j k _ m n o := st in
  Build_State a b c d e f g h i j k x m n o.
Definition set_heightQueries (x : list (Z * Value)) (st : State) : State :=
  let 'Build_State a b c d e f g h i j k l _ n o := st in
  Build_State a b c d e f g h i j k l x n o.
Definition set_warnings (x : nat) (st : State) : State :=
  let 'Build_State a b c d e f g h i j k l m _ o := st in
  Build_State a b c d e f g h i j k l m x o.
Definition set_commands (x : list Element) (st : State) : State :=
  let 'Build_State a b c d e f g h i j k l m n _ := st in
  Build_State a b c d e f g h i j k l m n x.

(** The component as React creates it, before its first render pass. *)
Definition mount : State :=
  {| adFormatSize := ∅; updates := 0; adViewRef := None;
     isInitialized := false; sizeProps := ∅; dimensions := ∅;
     mounted := true; effectFormat := None; view := None; created := 0;
     tabletQueries := 0; initQueries := 0; heightQueries := [];
     warnings := 0; commands := [] |}.

(** [forceUpdate()]: one more dispatch to the reducer [x => x + 1]. *)
Definition forceUpdate (st : State) : State :=
  set_updates (S (updates st)) st.

(** The imperative handle. *)
Definition loadAd (st : State) : State :=
  match adViewRef st with
  | Some element => set_commands (commands st ++ [element]) st
  | None => st
  end.

(** The ref callback given to the native component. *)
Definition saveElement (element : option Element) (st : State) : State :=
  match element with
  | Some e => set_adViewRef (Some e) st
  | None => st
  end.

(** The props handed to the native component; the other props are passed
    through as they came. *)
Record AdViewComponentProps := {
  view_adFormat : AdFormat;
  view_adaptiveBannerEnabled : bool;
  view_style : JsObject
}.

(** The value the component function returns: [None] is [null]. *)
Definition render (st : State) (p : Props) : option AdViewComponentProps :=
  if negb (isInitialized st) then None
  else
    let isDimensionsSet := Nat.ltb 0 (keysLength (dimensions st)) in
    if negb isDimensionsSet then None
    else Some {| view_adFormat := adFormat p;
                 view_adaptiveBannerEnabled := adaptiveBannerEnabled p;
                 view_style := assign (style p) (dimensions st) |}.

(** The callback of [AppLovinMAX.isTablet().then(...)]. *)
Definition tabletThen (result : bool) (st : State) : State :=
  if result
  then set_adFormatSize
         (sizeRecord (VNum (size_width (leader ADVIEW_SIZE)))
                     (VNum (size_height (leader ADVIEW_SIZE)))) st
  else set_adFormatSize
         (sizeRecord (VNum (size_width (banner ADVIEW_SIZE)))
                     (VNum (size_height (banner ADVIEW_SIZE)))) st.

(** The callback of [AppLovinMAX.isInitialized().then(...)]. *)
Definition initThen (result : bool) (st : State) : State :=
  let st := set_isInitialized result st in
  if negb result then set_warnings (S (warnings st)) st else st.

(** The first effect, keyed on [adFormat]. *)
Definition formatEffect (p : Props) (st : State) : State :=
  let st :=
    match adFormat p with
    | BANNER => set_tabletQueries (S (tabletQueries st)) st
    | MREC =>
        set_adFormatSize
          (sizeRecord (VNum (size_width (mrec ADVIEW_SIZE)))
                      (VNum (size_height (mrec ADVIEW_SIZE)))) st
    end in
  set_initQueries (S (initQueries st)) st.

(** The callback of [sizeBannerDimensions(...).then(...)]. *)
Definition bannerThen (adaptedSize : JsObject) (st : State) : State :=
  if strictNe (get (dimensions st) "width") (get adaptedSize "width")
     || strictNe (get (dimensions st) "height") (get adaptedSize "height")
  then forceUpdate (set_dimensions adaptedSize st)
  else st.

(** The second effect, run after every render.  A banner promise that
    never suspended runs its callback on the microtask queue, before any
    other event; a suspended one joins the outstanding height queries. *)
Definition sizingEffect (p : Props) (st : State) : State :=
  if negb (isInitialized st) then st
  else
    let '(width, height) := getOutlineViewSize (style p) in
    if strictEq (get (sizeProps st) "width") width
       && strictEq (get (sizeProps st) "height") height
    then st
    else
      let st := set_sizeProps (sizeRecord width height) st in
      match adFormat p with
      | BANNER =>
          match sizeBannerDimensions (sizeProps st) (adaptiveBannerEnabled p)
                  (screenWidth p) (adFormatSize st) with
          | Resolved adaptedSize => bannerThen adaptedSize st
          | AwaitHeight forWidth w =>
              set_heightQueries (heightQueries st ++ [(forWidth, w)]) st
          end
      | MREC =>
          forceUpdate
            (set_dimensions
               (sizeRecord
                  (if strictEq width auto
                   then get (adFormatSize st) "width" else width)
                  (if strictEq height auto
                   then get (adFormatSize st) "height" else height))
               st)
      end.

(** ** Events *)

Inductive Event : Type :=
| Render (p : Props)                  (* a render pass, its commit and its effects *)
| TabletResolved (result : bool)      (* an isTablet() promise fulfils *)
| InitResolved (result : bool)        (* an isInitialized() promise fulfils *)
| HeightResolved (i : nat) (height : Z) (* the i-th outstanding height query fulfils *)
| HeightRejected (i : nat)            (* the i-th outstanding height query rejects *)
| LoadAd                              (* the caller invokes the imperative handle *)
| Unmount.

(** React attaches and detaches the ref of the native component when that
    component enters or leaves the tree. *)
Definition commitRef (out : option AdViewComponentProps) (st : State) : State :=
  match out, view st with
  | Some _, None =>
      let e := created st in
      saveElement (Some e) (set_created (S e) (set_view (Some e) st))
  | None, Some _ => saveElement None (set_view None st)
  | _, _ => st
  end.

(** An effect with dependency list [[adFormat]] runs on the first commit
    and on every commit where [adFormat] differs from the previous one. *)
Definition runFormatEffect (p : Props) (st : State) : State :=
  if bool_decide (effectFormat st = Some (adFormat p)) then st
  else set_effectFormat (Some (adFormat p)) (formatEffect p st).

Definition renderPass (p : Props) (st : State) : State :=
  let out := render st p in
  let st := commitRef out st in
  let st := runFormatEffect p st in
  sizingEffect p st.

(** One event; [None] when the event cannot happen in [st].  The promise
    callbacks carry no mount check in the source: they run after the
    unmount as before it. *)
Definition step (st : State) (ev : Event) : option State :=
  match ev with
  | Render p => if mounted st then Some (renderPass p st) else None
  | TabletResolved result =>
      match tabletQueries st with
      | S n => Some (tabletThen result (set_tabletQueries n st))
      | O => None
      end
  | InitResolved result =>
      match initQueries st with
      | S n => Some (initThen result (set_initQueries n st))
      | O => None
      end
  | HeightResolved i height =>
      match heightQueries st !! i with
      | Some (_, width) =>
          Some (bannerThen (resume width (VNum height))
                  (set_heightQueries (delete i (heightQueries st)) st))
      | None => None
      end
  | HeightRejected i =>
      match heightQueries st !! i with
      | Some _ => Some (set_heightQueries (delete i (heightQueries st)) st)
      | None => None
      end
  | LoadAd => if mounted st then Some (loadAd st) else None
  | Unmount =>
      if mounted st then Some (commitRef None (set_mounted false st)) else None
  end.

Fixpoint run (st : State) (evs : list Event) : option State :=
  match evs with
  | [] => Some st
  | ev :: evs' =>
      match step st ev with
      | Some st' => run st' evs'
      | None => None
      end
  end.

Inductive reachable : State → Prop :=
| reachable_mount : reachable mount
| reachable_step st ev st' :
    reachable st → step st ev = Some st' → reachable st'.

(** The guard of the sizing effect, read off the source: the pass goes on
    only when the declared size differs from the one of the prior pass. *)
Definition declaredSizeChanged (p : Props) (st : State) : bool :=
  let '(width, height) := getOutlineViewSize (style p) in
  negb (strictEq (get (sizeProps st) "width") width
        && strictEq (get (sizeProps st) "height") height).

(** The fields the sizing logic reads and writes. *)
Record SizingView := {
  sv_adFormatSize : JsObject;
  sv_updates : nat;
  sv_isInitialized : bool;
  sv_sizeProps : JsObject;
  sv_dimensions : JsObject;
  sv_heightQueries : list (Z * Value)
}.

Definition sizingView (st : State) : SizingView :=
  {| sv_adFormatSize := adFormatSize st;
     sv_updates := updates st;
     sv_isInitialized := isInitialized st;
     sv_sizeProps := sizeProps st;
     sv_dimensions := dimensions st;
     sv_heightQueries := heightQueries st |}.

(** The state on which the sizing effect of a render pass runs. *)
Definition beforeSizing (p : Props) (st : State) : State :=
  runFormatEffect p (commitRef (render st p) st).

(** What a sizing pass that is not cut short does. *)
Definition sizingPass (p : Props) (st : State) : State :=
  let '(width, height) := getOutlineViewSize (style p) in
  let st := set_sizeProps (sizeRecord width height) st in
  match adFormat p with
  | BANNER =>
      match sizeBannerDimensions (sizeProps st) (adaptiveBannerEnabled p)
              (screenWidth p) (adFormatSize st) with
      | Resolved adaptedSize => bannerThen adaptedSize st
      | AwaitHeight forWidth w =>
          set_heightQueries (heightQueries st ++ [(forWidth, w)]) st
      end
  | MREC =>
      forceUpdate
        (set_dimensions
           (sizeRecord
              (if strictEq width auto
               then get (adFormatSize st) "width" else width)
              (if strictEq height auto
               then get (adFormatSize st) "height" else height))
           st)
  end.

(** ** Statements used by the properties *)

(** A style dimension that is declared: neither missing nor ['auto']. *)
Definition concrete (v : Value) : Prop :=
  v ≠ VUndefined ∧ v ≠ VNull ∧ v ≠ auto.

(** Every render pass of the trace was given the format [fmt]. *)
Definition rendersOnly (fmt : AdFormat) (evs : list Event) : Prop :=
  Forall (λ ev, match ev with Render p => adFormat p = fmt | _ => True end) evs.

(** The adaptive height as the specification words it: the height query
    is asked about the resolved width. *)
Definition adaptive_height_for_resolved_width : Prop :=
  ∀ (query : Z → Z) (sizeProps : JsObject) (screenWidth : Z)
    (bannerFormatSize : JsObject) (resolvedWidth : Z),
    get sizeProps "height" = auto →
    promisedWidth
      (sizeBannerDimensions sizeProps true screenWidth bannerFormatSize)
    = VNum resolvedWidth →
    get (settle query
           (sizeBannerDimensions sizeProps true screenWidth bannerFormatSize))
        "height"
    = VNum (query resolvedWidth).



(** The resolved pair a state holds. *)
Definition resolvedPair (st : State) : Value * Value :=
  (get (dimensions st) "width", get (dimensions st) "height").

(** The pair an object denotes. *)
Definition pairOf (size : JsObject) : Value * Value :=
  (get size "width", get size "height").

(** Two pairs compared as the banner callback compares them, field by
    field with [!==]. *)
Definition pairNe (a b : Value * Value) : bool :=
  strictNe a.1 b.1 || strictNe a.2 b.2.

(** A pair without [NaN]. *)
Definition noNaN (a : Value * Value) : Prop := a.1 ≠ VNaN ∧ a.2 ≠ VNaN.

(** The notification policy as the specification words it: whatever
    notifies the host has changed the resolved pair. *)
Definition notified_only_on_change : Prop :=
  ∀ st ev st',
    reachable st → step st ev = Some st' →
    updates st' ≠ updates st → resolvedPair st' ≠ resolvedPair st.

(** The events of the banner path that can reach the banner callback. *)
Definition bannerEvent (ev : Event) : Prop :=
  match ev with
  | Render p => adFormat p = BANNER
  | HeightResolved _ _ => True
  | _ => False
  end.

(** The answer of the last initialization query answered in a trace;
    [acc] when none was. *)
Fixpoint lastInit (acc : bool) (evs : list Event) : bool :=
  match evs with
  | [] => acc
  | InitResolved result :: evs' => lastInit result evs'
  | _ :: evs' => lastInit acc evs'
  end.

(** A size with no unspecified field. *)
Definition fullySized (size : JsObject) : Prop :=
  concrete (get size "width") ∧ concrete (get size "height").

(** The gate as the specification words it: the native view is rendered
    only with a resolved size that has no unspecified field. *)
Definition view_only_when_fully_sized : Prop :=
  ∀ st p v,
    reachable st → render st p = Some v →
    isInitialized st = true ∧ fullySized (dimensions st).

(** Whether every render pass of the trace, run from [st], returned
    [null]. *)
Fixpoint renderedNothing (st : State) (evs : list Event) : bool :=
  match evs with
  | [] => true
  | ev :: evs' =>
      match ev with
      | Render p => bool_decide (render st p = None)
      | _ => true
      end
      && match step st ev with
         | Some st' => renderedNothing st' evs'
         | None => true
         end
  end.

(** The discard of late responses as the specification words it, after
    the unmount and for a query that a newer one follows in the queue. *)
Definition discarded_after_unmount : Prop :=
  ∀ st i h st',
    reachable st → mounted st = false →
    step st (HeightResolved i h) = Some st' →
    dimensions st' = dimensions st ∧ updates st' = updates st.

Definition discarded_when_superseded : Prop :=
  ∀ st i h st',
    reachable st → S i < length (heightQueries st) →
    step st (HeightResolved i h) = Some st' →
    dimensions st' = dimensions st ∧ updates st' = updates st.

(** ** Sample inputs *)

Definition propsOf (fmt : AdFormat) (adaptive : bool)
    (style : StyleProp) (screenWidth : Z) : Props :=
  {| adFormat := fmt; adaptiveBannerEnabled := adaptive;
     style := style; screenWidth := screenWidth |}.

(** A mount that rendered once with [p] and then learnt that the module
    is initialized. *)
Definition initialized (p : Props) : list Event :=
  [Render p; InitResolved true].

(** The state a trace leads to from the mount (the mount itself when the
    trace cannot happen). *)
Definition afterEvents (evs : list Event) : State :=
  default mount (run mount evs).

(** ** The preload and destroy functions *)

Module Bridge.
Section Passthrough.
(** Values that cross the bridge, and the reasons a native promise is
    rejected with; both are opaque to this code. *)
Context {V E : Type}.

(** The state of a [Promise<void>]. *)
Inductive Outcome : Type :=
| Pending
| Fulfilled
| Rejected (reason : E).

(** The two native methods, with the arguments they are called with;
    [None] is [undefined]. *)
Inductive NativeCall : Type :=
| PreloadCall (adUnitId : string) (adFormat : AdFormat)
    (placement customData extraParameters localExtraParameters : option V)
| DestroyCall (adUnitId : string).

(** The native module: the promise it returns for each call. *)
Definition NativeModule : Type := NativeCall → Outcome.

(** JavaScript code that calls the native module: given the module
    and the calls made so far, a result and the calls made. *)
Definition Js (A : Type) : Type :=
  NativeModule → list NativeCall → A * list NativeCall.

Definition invoke (call : NativeCall) : Js Outcome :=
  λ native calls, (native call, (calls ++ [call])%list).

(** [options?.key]. *)
Definition optional (options : option (gmap string V)) (key : string)
  : option V :=
  match options with
  | Some o => o !! key
  | None => None
  end.

(** An async function that returns a promise settles as that promise
    does. *)
Definition preloadNativeUIComponentAdView (adUnitId : string)
    (adFormat : AdFormat) (options : option (gmap string V))
  : Js Outcome :=
  invoke (PreloadCall adUnitId adFormat
            (optional options "placement")
            (optional options "customData")
            (optional options "extraParameters")
            (optional options "localExtraParameters")).

End Passthrough.
End Bridge.

(** ** Statements about the rest of the component *)

(** A value that is neither [undefined] nor [null]. *)
Definition nonNullish (v : Value) : Prop := v ≠ VUndefined ∧ v ≠ VNull.

(** A height a stored size may hold: a declared or numeric one, and, when
    banners without adaptive sizing are allowed ([strict = false]), also
    [undefined]. *)
Definition heightOk (strict : bool) (h : Value) : Prop :=
  concrete h ∨ (strict = false ∧ h = VUndefined).

(** The shapes the stored dimensions take: the initial empty object, or a
    width and height record. *)
Definition sizeShape (strict : bool) (d : JsObject) : Prop :=
  d = ∅ ∨ ∃ w h, d = sizeRecord w h ∧ concrete w ∧ heightOk strict h.

(** A format size as the first effect and the tablet answer store it. *)
Definition numericSize (o : JsObject) : Prop :=
  ∃ w h : Z, o = sizeRecord (VNum w) (VNum h).

Definition shapeInv (strict : bool) (st : State) : Prop :=
  (adFormatSize st = ∅ ∨ numericSize (adFormatSize st))
  ∧ (effectFormat st = Some MREC → numericSize (adFormatSize st))
  ∧ sizeShape strict (dimensions st)
  ∧ Forall (λ q : Z * Value, concrete q.2) (heightQueries st).

(** No render pass of the trace is a banner without adaptive sizing. *)
Definition noPlainBanner (evs : list Event) : Prop :=
  Forall (λ ev, match ev with
                | Render p => adFormat p = MREC ∨ adaptiveBannerEnabled p = true
                | _ => True
                end) evs.

(** No render pass of the trace is a banner with adaptive sizing. *)
Definition noAdaptiveBanner (evs : list Event) : Prop :=
  Forall (λ ev, match ev with
                | Render p => adFormat p = MREC ∨ adaptiveBannerEnabled p = false
                | _ => True
                end) evs.

(** No initialization query of the trace was answered true. *)
Definition neverInitialized (evs : list Event) : Prop :=
  Forall (λ ev, ev ≠ InitResolved true) evs.

(** Counting the events of a trace. *)
Fixpoint initAnswers (evs : list Event) : nat :=
  match evs with
  | [] => 0
  | InitResolved _ :: evs' => S (initAnswers evs')
  | _ :: evs' => initAnswers evs'
  end.

Fixpoint tabletAnswers (evs : list Event) : nat :=
  match evs with
  | [] => 0
  | TabletResolved _ :: evs' => S (tabletAnswers evs')
  | _ :: evs' => tabletAnswers evs'
  end.

Fixpoint refusals (evs : list Event) : nat :=
  match evs with
  | [] => 0
  | InitResolved false :: evs' => S (refusals evs')
  | _ :: evs' => refusals evs'
  end.

(** The render passes of a trace whose format differs from the format of
    the pass before ([prev]: the format of the last pass so far), and
    those among them that are banners. *)
Fixpoint formatRuns (prev : option AdFormat) (evs : list Event) : nat :=
  match evs with
  | [] => 0
  | Render p :: evs' =>
      (if bool_decide (prev = Some (adFormat p)) then 0 else 1)
      + formatRuns (Some (adFormat p)) evs'
  | _ :: evs' => formatRuns prev evs'
  end.

Fixpoint bannerRuns (prev : option AdFormat) (evs : list Event) : nat :=
  match evs with
  | [] => 0
  | Render p :: evs' =>
      (if bool_decide (prev = Some (adFormat p)) then 0
       else match adFormat p with BANNER => 1 | MREC => 0 end)
      + bannerRuns (Some (adFormat p)) evs'
  | _ :: evs' => bannerRuns prev evs'
  end.

(** The events that can store a size. *)
Definition sizingEvent (ev : Event) : Prop :=
  match ev with
  | Render _ | HeightResolved _ _ => True
  | _ => False
  end.

(** The saved reference follows the native view: it points to the view
    in the tree when there is one, and only ever to a view that was
    created. *)
Definition refInv (st : State) : Prop :=
  (∀ e, view st = Some e → adViewRef st = Some e)
  ∧ (∀ e, adViewRef st = Some e → e < created st).

(** The option fields [preloadNativeUIComponentAdView] reads. *)
Definition preloadOptionKeys : list string :=
  ["placement"; "customData"; "extraParameters"; "localExtraParameters"].

(** * Properties *)

Example sizeBanner_auto_adaptive :
  sizeBannerDimensions (sizeRecord auto auto) true 390 ∅
  = AwaitHeight 390 (VNum 390).
Proof. reflexivity. Qed.

Example sizeBanner_fixed :
  sizeBannerDimensions (sizeRecord (VNum 300) (VNum 50)) true 390 ∅
  = Resolved (sizeRecord (VNum 300) (VNum 50)).
Proof. vm_compute. reflexivity. Qed.

(** ** Basic facts about values, objects and the state setters *)

Lemma strictEq_true a b : strictEq a b = true ↔ a = b ∧ a ≠ VNaN.
Proof.
  unfold strictEq. split.
  - destruct a, b; try done; intros H; apply bool_decide_eq_true in H;
      by split.
  - intros [-> H]. destruct b; try done; by apply bool_decide_eq_true.
Qed.

Lemma strictEq_false a b : strictEq a b = false ↔ a ≠ b ∨ a = VNaN.
Proof.
  split.
  - intros H. destruct (decide (a = VNaN)) as [| Hn]; [by right |].
    left. intros ->. assert (strictEq b b = true) as H'
      by (by apply strictEq_true). by rewrite H in H'.
  - intros H. destruct (strictEq a b) eqn:E; [| done].
    apply strictEq_true in E as [-> Hn]. by destruct H.
Qed.

Lemma strictEq_eq a b : strictEq a b = true → a = b.
Proof. intros H. by apply strictEq_true in H as [-> _]. Qed.

Lemma strictEq_ne a b : a ≠ b → strictEq a b = false.
Proof. intros H. apply strictEq_false. by left. Qed.

Lemma strictEq_refl a : a ≠ VNaN → strictEq a a = true.
Proof. intros H. by apply strictEq_true. Qed.

Lemma strictEq_nan_l b : strictEq VNaN b = false.
Proof. done. Qed.

Lemma strictEq_nan_r a : strictEq a VNaN = false.
Proof. by destruct a. Qed.

Lemma strictEq_auto_refl : strictEq auto auto = true.
Proof. done. Qed.

Lemma strictEq_auto v : strictEq v auto = true ↔ v = auto.
Proof.
  split; [apply strictEq_eq | intros ->; apply strictEq_auto_refl].
Qed.

Lemma strictEq_auto_false v : strictEq v auto = false ↔ v ≠ auto.
Proof.
  split.
  - intros H ->. by rewrite strictEq_auto_refl in H.
  - apply strictEq_ne.
Qed.

Lemma get_sizeRecord_width w h : get (sizeRecord w h) "width" = w.
Proof. unfold get, sizeRecord. by rewrite lookup_insert_eq. Qed.

Lemma get_sizeRecord_height w h : get (sizeRecord w h) "height" = h.
Proof.
  unfold get, sizeRecord.
  rewrite lookup_insert_ne by done. by rewrite lookup_singleton_eq.
Qed.

Lemma keysLength_sizeRecord w h : keysLength (sizeRecord w h) = 2.
Proof.
  unfold keysLength, sizeRecord.
  rewrite map_size_insert_None by (by rewrite lookup_singleton_ne).
  by rewrite map_size_singleton.
Qed.

Lemma coalesce_concrete v d :
  v ≠ VUndefined → v ≠ VNull → coalesce v d = v.
Proof. by destruct v. Qed.

Lemma coalesce_nullish v d :
  v = VUndefined ∨ v = VNull → coalesce v d = d.
Proof. by intros [-> | ->]. Qed.

Ltac state_simpl :=
  repeat match goal with
         | st : State |- _ => destruct st
         end;
  cbn [set_adFormatSize set_updates set_adViewRef set_isInitialized
       set_sizeProps set_dimensions set_mounted set_effectFormat set_view
       set_created set_tabletQueries set_initQueries set_heightQueries
       set_warnings set_commands
       adFormatSize updates adViewRef isInitialized sizeProps dimensions
       mounted effectFormat view created tabletQueries initQueries
       heightQueries warnings commands] in *.

Lemma commitRef_sizingView out st :
  sizingView (commitRef out st) = sizingView st.
Proof.
  unfold commitRef, saveElement.
  destruct out, st as [? ? ? ? ? ? ? ? [e|] ? ? ? ? ? ?]; reflexivity.
Qed.

Lemma runFormatEffect_frame p st :
  let st' := runFormatEffect p st in
  updates st' = updates st ∧ isInitialized st' = isInitialized st
  ∧ sizeProps st' = sizeProps st ∧ dimensions st' = dimensions st
  ∧ heightQueries st' = heightQueries st
  ∧ (adFormat p = BANNER → adFormatSize st' = adFormatSize st).
Proof.
  unfold runFormatEffect, formatEffect. cbn zeta.
  case_bool_decide; [done |].
  destruct (adFormat p); state_simpl; done.
Qed.

Lemma renderPass_unfold p st :
  renderPass p st = sizingEffect p (beforeSizing p st).
Proof. reflexivity. Qed.

Lemma beforeSizing_frame p st :
  let st' := beforeSizing p st in
  updates st' = updates st ∧ isInitialized st' = isInitialized st
  ∧ sizeProps st' = sizeProps st ∧ dimensions st' = dimensions st
  ∧ heightQueries st' = heightQueries st
  ∧ (adFormat p = BANNER → adFormatSize st' = adFormatSize st).
Proof.
  cbn zeta. unfold beforeSizing.
  pose proof (runFormatEffect_frame p (commitRef (render st p) st)) as H.
  cbn zeta in H. destruct H as (H1 & H2 & H3 & H4 & H5 & H6).
  pose proof (commitRef_sizingView (render st p) st) as Hc.
  unfold sizingView in Hc. injection Hc as E1 E2 E3 E4 E5 E6.
  rewrite H1, H2, H3, H4, H5. repeat split; try done.
  intros Hb. by rewrite H6.
Qed.

Lemma declaredSizeChanged_beforeSizing p st :
  declaredSizeChanged p (beforeSizing p st) = declaredSizeChanged p st.
Proof.
  unfold declaredSizeChanged.
  destruct (beforeSizing_frame p st) as (_ & _ & -> & _). done.
Qed.

Lemma sizingEffect_runs p st :
  isInitialized st = true → declaredSizeChanged p st = true →
  sizingEffect p st = sizingPass p st.
Proof.
  unfold sizingEffect, sizingPass, declaredSizeChanged.
  intros -> Hc. cbn [negb].
  destruct (getOutlineViewSize (style p)) as [w h].
  apply negb_true_iff in Hc. by rewrite Hc.
Qed.

Lemma sizingEffect_skips p st :
  isInitialized st = false ∨ declaredSizeChanged p st = false →
  sizingEffect p st = st.
Proof.
  unfold sizingEffect, declaredSizeChanged.
  intros [-> | Hc]; [done |].
  destruct (isInitialized st); [| done]. cbn [negb].
  destruct (getOutlineViewSize (style p)) as [w h].
  apply negb_false_iff in Hc. by rewrite Hc.
Qed.

Lemma step_render p st st' :
  step st (Render p) = Some st' →
  mounted st = true ∧ st' = sizingEffect p (beforeSizing p st).
Proof.
  cbn [step]. destruct (mounted st); [| done].
  intros [= <-]. by rewrite renderPass_unfold.
Qed.

(** ** Traces *)

Lemma run_invariant (I : State → Prop) (P : Event → Prop) :
  (∀ st ev st', I st → P ev → step st ev = Some st' → I st') →
  ∀ evs st st', I st → Forall P evs → run st evs = Some st' → I st'.
Proof.
  intros Hstep evs. induction evs as [| ev evs IH]; intros st st' HI HP Hrun.
  - cbn in Hrun. by injection Hrun as <-.
  - cbn in Hrun. destruct (step st ev) as [st1 |] eqn:E; [| done].
    apply Forall_cons in HP as [Hev HP].
    eapply IH; [| exact HP | exact Hrun]. by eapply Hstep.
Qed.

Lemma run_reachable evs st st' :
  reachable st → run st evs = Some st' → reachable st'.
Proof.
  intros Hr Hrun.
  eapply (run_invariant reachable (λ _, True)); [| exact Hr | | exact Hrun].
  - intros s ev s' Hs _ Hst. by eapply reachable_step.
  - by apply Forall_true.
Qed.

Lemma reachable_run st :
  reachable st → ∃ evs, run mount evs = Some st.
Proof.
  induction 1 as [| st ev st' _ [evs IH] Hstep].
  - by exists [].
  - exists (evs ++ [ev])%list.
    revert IH. generalize mount. induction evs as [| e evs IHe]; intros s0 IH.
    + cbn in *. injection IH as ->. by rewrite Hstep.
    + cbn in *. destruct (step s0 e); [| done]. by apply IHe.
Qed.

(** ** The banner callback *)

Lemma bannerThen_changed adaptedSize st :
  (get (dimensions st) "width" ≠ get adaptedSize "width"
   ∨ get (dimensions st) "height" ≠ get adaptedSize "height") →
  bannerThen adaptedSize st = forceUpdate (set_dimensions adaptedSize st).
Proof.
  unfold bannerThen, strictNe. intros [H | H].
  - apply strictEq_ne in H. by rewrite H.
  - apply strictEq_ne in H. rewrite H. by rewrite orb_true_r.
Qed.

Lemma bannerThen_pairNe adaptedSize st :
  bannerThen adaptedSize st
  = if pairNe (resolvedPair st) (pairOf adaptedSize)
    then forceUpdate (set_dimensions adaptedSize st) else st.
Proof. reflexivity. Qed.

Lemma pairNe_false a b : pairNe a b = false → a = b ∧ noNaN a.
Proof.
  unfold pairNe, strictNe. intros H.
  apply orb_false_iff in H as [H1 H2].
  apply negb_false_iff, strictEq_true in H1 as [H1 N1].
  apply negb_false_iff, strictEq_true in H2 as [H2 N2].
  split; [| done]. destruct a, b; cbn in *. by subst.
Qed.

Lemma pairNe_differ a b : a ≠ b → pairNe a b = true.
Proof.
  intros H. destruct (pairNe a b) eqn:E; [done |].
  by apply pairNe_false in E as [-> _].
Qed.

Lemma pairNe_same a : noNaN a → pairNe a a = false.
Proof.
  intros [H1 H2]. unfold pairNe, strictNe.
  by rewrite !strictEq_refl.
Qed.

Lemma pairNe_nan a b : ¬ noNaN b → pairNe a b = true.
Proof.
  intros H. destruct (pairNe a b) eqn:E; [done |].
  by apply pairNe_false in E as [-> Hn].
Qed.

Lemma bannerThen_unchanged adaptedSize st :
  get (dimensions st) "width" = get adaptedSize "width" →
  get (dimensions st) "height" = get adaptedSize "height" →
  noNaN (pairOf adaptedSize) →
  bannerThen adaptedSize st = st.
Proof.
  intros Hw Hh Hn. rewrite bannerThen_pairNe.
  unfold resolvedPair. rewrite Hw, Hh. fold (pairOf adaptedSize).
  by rewrite pairNe_same.
Qed.

Lemma bannerThen_cases adaptedSize st :
  (get (dimensions st) "width" = get adaptedSize "width"
   ∧ get (dimensions st) "height" = get adaptedSize "height"
   ∧ bannerThen adaptedSize st = st)
  ∨ (pairNe (resolvedPair st) (pairOf adaptedSize) = true
     ∧ bannerThen adaptedSize st = forceUpdate (set_dimensions adaptedSize st)).
Proof.
  rewrite bannerThen_pairNe.
  destruct (pairNe (resolvedPair st) (pairOf adaptedSize)) eqn:E.
  - by right.
  - left. apply pairNe_false in E as [[= Hw Hh] _]. done.
Qed.

Lemma bannerThen_size adaptedSize st :
  get (dimensions (bannerThen adaptedSize st)) "width" = get adaptedSize "width"
  ∧ get (dimensions (bannerThen adaptedSize st)) "height" = get adaptedSize "height".
Proof.
  destruct (bannerThen_cases adaptedSize st) as [(Hw & Hh & ->) | (_ & ->)].
  - done.
  - unfold forceUpdate. by state_simpl.
Qed.

Lemma bannerThen_heightQueries adaptedSize st :
  heightQueries (bannerThen adaptedSize st) = heightQueries st.
Proof.
  destruct (bannerThen_cases adaptedSize st) as [(_ & _ & ->) | (_ & ->)];
    [done |]. unfold forceUpdate. by state_simpl.
Qed.

(** ** Banner sizing as a function *)

Lemma sizeBanner_width_auto sizeProps adaptive screenWidth bfs :
  get sizeProps "width" = auto →
  promisedWidth (sizeBannerDimensions sizeProps adaptive screenWidth bfs)
  = VNum screenWidth.
Proof.
  intros Hw. unfold sizeBannerDimensions. rewrite Hw, strictEq_auto_refl.
  destruct (strictEq (get sizeProps "height") auto), adaptive;
    cbn [promisedWidth]; by rewrite ?get_sizeRecord_width.
Qed.

Lemma sizeBanner_width_declared sizeProps adaptive screenWidth bfs :
  get sizeProps "width" ≠ auto →
  promisedWidth (sizeBannerDimensions sizeProps adaptive screenWidth bfs)
  = get sizeProps "width".
Proof.
  intros Hw. unfold sizeBannerDimensions.
  apply strictEq_ne in Hw. rewrite Hw.
  destruct (strictEq (get sizeProps "height") auto), adaptive;
    cbn [promisedWidth]; by rewrite ?get_sizeRecord_width.
Qed.

Lemma sizeBanner_declared w h adaptive screenWidth bfs :
  w ≠ auto → h ≠ auto →
  sizeBannerDimensions (sizeRecord w h) adaptive screenWidth bfs
  = Resolved (sizeRecord w h).
Proof.
  intros Hw Hh. unfold sizeBannerDimensions.
  rewrite get_sizeRecord_width, get_sizeRecord_height.
  apply strictEq_ne in Hw, Hh. by rewrite Hw, Hh.
Qed.

(** C1, as stated, fails: with a declared width of 300 on a 390 wide
    screen the height query is asked about 390. *)
Lemma adaptive_height_not_for_resolved_width :
  ¬ adaptive_height_for_resolved_width.
Proof.
  intros H.
  specialize (H (λ w, w) (sizeRecord (VNum 300) auto) 390%Z ∅ 300%Z
                eq_refl eq_refl).
  vm_compute in H. discriminate H.
Qed.

(** C1 (amended): for a banner with the adaptive flag set and no declared
    height, the sizing suspends on the height query for the SCREEN width
    and resolves to the height the query returns for the screen width;
    that is the resolved width exactly when no width was declared, while
    a declared width is kept as the resolved width and not asked about. *)
Theorem adaptive_height_for_screen_width
    (query : Z → Z) (sizeProps : JsObject) (screenWidth : Z)
    (bannerFormatSize : JsObject) :
  get sizeProps "height" = auto →
  let promise :=
    sizeBannerDimensions sizeProps true screenWidth bannerFormatSize in
  promise = AwaitHeight screenWidth (promisedWidth promise)
  ∧ get (settle query promise) "height" = VNum (query screenWidth)
  ∧ (get sizeProps "width" = auto → promisedWidth promise = VNum screenWidth)
  ∧ (get sizeProps "width" ≠ auto →
     promisedWidth promise = get sizeProps "width").
Proof.
  intros Hh promise. subst promise.
  split; [| split; [| split]].
  - unfold sizeBannerDimensions. by rewrite Hh, strictEq_auto_refl.
  - unfold sizeBannerDimensions. rewrite Hh, strictEq_auto_refl.
    cbn [settle]. unfold resume. by rewrite get_sizeRecord_height.
  - apply sizeBanner_width_auto.
  - apply sizeBanner_width_declared.
Qed.

Lemma adaptive_height_for_screen_width_witness :
  get (sizeRecord (VNum 300) auto) "height" = auto
  ∧ get (settle (λ w, (w / 8)%Z)
           (sizeBannerDimensions (sizeRecord (VNum 300) auto) true 390 ∅))
        "height" = VNum 48.
Proof.
  split; [reflexivity |].
  apply (adaptive_height_for_screen_width
           (λ w, (w / 8)%Z) (sizeRecord (VNum 300) auto) 390%Z ∅ eq_refl).
Defined.

(** ** Render passes *)

Lemma render_step_runs st p st' :
  step st (Render p) = Some st' →
  isInitialized st = true → declaredSizeChanged p st = true →
  st' = sizingPass p (beforeSizing p st).
Proof.
  intros Hstep Hi Hc. apply step_render in Hstep as [_ ->].
  apply sizingEffect_runs.
  - by destruct (beforeSizing_frame p st) as (_ & -> & _).
  - by rewrite declaredSizeChanged_beforeSizing.
Qed.

Lemma render_step_skips st p st' :
  step st (Render p) = Some st' →
  isInitialized st = false ∨ declaredSizeChanged p st = false →
  st' = beforeSizing p st.
Proof.
  intros Hstep Hs. apply step_render in Hstep as [_ ->].
  apply sizingEffect_skips.
  rewrite declaredSizeChanged_beforeSizing.
  by destruct (beforeSizing_frame p st) as (_ & -> & _).
Qed.

Lemma flatten_orEmpty style : flatten (orEmpty style) = Some (flatStyle style).
Proof. unfold flatStyle. by destruct style. Qed.

Lemma outline_flatStyle style :
  getOutlineViewSize style
  = (coalesce (get (flatStyle style) "width") auto,
     coalesce (get (flatStyle style) "height") auto).
Proof. unfold getOutlineViewSize. by rewrite flatten_orEmpty. Qed.

Lemma outline_declared styleObj p :
  flatStyle (style p) = styleObj →
  concrete (get styleObj "width") → concrete (get styleObj "height") →
  getOutlineViewSize (style p) = (get styleObj "width", get styleObj "height").
Proof.
  intros <- (Hw1 & Hw2 & _) (Hh1 & Hh2 & _).
  rewrite outline_flatStyle. by rewrite !coalesce_concrete.
Qed.

Lemma sizingPass_declared p st w h :
  getOutlineViewSize (style p) = (w, h) → w ≠ auto → h ≠ auto →
  get (dimensions (sizingPass p st)) "width" = w
  ∧ get (dimensions (sizingPass p st)) "height" = h
  ∧ heightQueries (sizingPass p st) = heightQueries st.
Proof.
  intros Ho Hw Hh. unfold sizingPass. rewrite Ho.
  destruct (adFormat p).
  - replace (sizeProps (set_sizeProps (sizeRecord w h) st))
      with (sizeRecord w h) by (by state_simpl).
    rewrite sizeBanner_declared by done.
    destruct (bannerThen_size (sizeRecord w h)
                (set_sizeProps (sizeRecord w h) st)) as [-> ->].
    rewrite bannerThen_heightQueries.
    rewrite get_sizeRecord_width, get_sizeRecord_height.
    by state_simpl.
  - apply strictEq_ne in Hw, Hh. rewrite Hw, Hh.
    unfold forceUpdate. state_simpl.
    by rewrite get_sizeRecord_width, get_sizeRecord_height.
Qed.

(** C3: when the style declares both a width and a height, a resolution
    pass stores exactly the declared pair, whatever the format, the
    adaptive flag and the screen width, and leaves no height query
    outstanding that was not there before. *)
Theorem declared_size_kept (st st' : State) (p : Props) (styleObj : JsObject) :
  flatStyle (style p) = styleObj →
  concrete (get styleObj "width") → concrete (get styleObj "height") →
  isInitialized st = true → declaredSizeChanged p st = true →
  step st (Render p) = Some st' →
  get (dimensions st') "width" = get styleObj "width"
  ∧ get (dimensions st') "height" = get styleObj "height"
  ∧ heightQueries st' = heightQueries st.
Proof.
  intros Hs Hw Hh Hi Hc Hstep.
  rewrite (render_step_runs _ _ _ Hstep Hi Hc).
  destruct (beforeSizing_frame p st) as (_ & _ & _ & _ & <- & _).
  apply sizingPass_declared.
  - by apply outline_declared.
  - apply Hw.
  - apply Hh.
Qed.

Lemma declared_size_kept_witness :
  ∃ st st',
    run mount (initialized (propsOf BANNER true StyleAbsent 390)) = Some st
    ∧ step st (Render (propsOf BANNER true
                         (StyleObject (sizeRecord (VNum 300) (VNum 50))) 390))
      = Some st'
    ∧ get (dimensions st') "width" = VNum 300
    ∧ get (dimensions st') "height" = VNum 50
    ∧ heightQueries st' = heightQueries st.
Proof.
  eexists _, _.
  split; [vm_compute; reflexivity |].
  split; [vm_compute; reflexivity |].
  apply (declared_size_kept _ _
           (propsOf BANNER true (StyleObject (sizeRecord (VNum 300) (VNum 50))) 390)
           (sizeRecord (VNum 300) (VNum 50)));
    [reflexivity | done | done | reflexivity | reflexivity
    | vm_compute; reflexivity].
Defined.

(** ** The stored format size *)

Lemma sizingEffect_format_frame p st :
  let st' := sizingEffect p st in
  adFormatSize st' = adFormatSize st ∧ isInitialized st' = isInitialized st
  ∧ effectFormat st' = effectFormat st
  ∧ tabletQueries st' = tabletQueries st ∧ initQueries st' = initQueries st.
Proof.
  cbn zeta. unfold sizingEffect.
  destruct (isInitialized st) eqn:Hi; cbn [negb]; [| by rewrite Hi].
  destruct (getOutlineViewSize (style p)) as [w h].
  destruct (_ && _); [by rewrite Hi |].
  destruct (adFormat p).
  - destruct (sizeBannerDimensions _ _ _ _) as [a | fw w'].
    + unfold bannerThen, forceUpdate.
      destruct (_ || _); state_simpl; by subst.
    + state_simpl; by subst.
  - unfold forceUpdate. state_simpl; by subst.
Qed.

Lemma commitRef_format_frame out st :
  let st' := commitRef out st in
  adFormatSize st' = adFormatSize st ∧ isInitialized st' = isInitialized st
  ∧ effectFormat st' = effectFormat st
  ∧ tabletQueries st' = tabletQueries st ∧ initQueries st' = initQueries st.
Proof.
  cbn zeta. unfold commitRef, saveElement.
  destruct out, st as [? ? ? ? ? ? ? ? [e|] ? ? ? ? ? ?]; done.
Qed.







(** ** Format defaults *)

Lemma tabletThen_adFormatSize result st :
  adFormatSize (tabletThen result st)
  = sizeRecord (VNum (if result then 728 else 320))
               (VNum (if result then 90 else 50)).
Proof. unfold tabletThen. destruct result; by state_simpl. Qed.

Lemma formatEffect_mrec p st :
  adFormat p = MREC →
  adFormatSize (formatEffect p st) = sizeRecord (VNum 300) (VNum 250).
Proof. intros Hp. unfold formatEffect. rewrite Hp. by state_simpl. Qed.

Lemma sizeBanner_default_height sizeProps screenWidth bfs :
  get sizeProps "height" = auto →
  sizeBannerDimensions sizeProps false screenWidth bfs
  = Resolved
      (sizeRecord
         (promisedWidth (sizeBannerDimensions sizeProps false screenWidth bfs))
         (get bfs "height")).
Proof.
  intros Hh. unfold sizeBannerDimensions. rewrite Hh, strictEq_auto_refl.
  cbn [promisedWidth]. by rewrite get_sizeRecord_width.
Qed.

Lemma step_tablet st result st' :
  step st (TabletResolved result) = Some st' →
  adFormatSize st'
  = sizeRecord (VNum (if result then 728 else 320))
               (VNum (if result then 90 else 50))
  ∧ isInitialized st' = isInitialized st ∧ sizeProps st' = sizeProps st.
Proof.
  cbn [step]. destruct (tabletQueries st) as [| n]; [done |].
  intros [= <-]. rewrite tabletThen_adFormatSize.
  unfold tabletThen. destruct result; by state_simpl.
Qed.

Lemma banner_pass_default_height st st' p :
  adFormat p = BANNER → adaptiveBannerEnabled p = false →
  (getOutlineViewSize (style p)).2 = auto →
  isInitialized st = true → declaredSizeChanged p st = true →
  step st (Render p) = Some st' →
  get (dimensions st') "height" = get (adFormatSize st) "height".
Proof.
  intros Hp Ha Hh Hi Hc Hstep.
  rewrite (render_step_runs _ _ _ Hstep Hi Hc).
  destruct (beforeSizing_frame p st) as (_ & _ & _ & _ & _ & Hkeep).
  specialize (Hkeep Hp).
  unfold sizingPass. destruct (getOutlineViewSize (style p)) as [w h].
  cbn [snd] in Hh. subst h. rewrite Hp, Ha.
  replace (sizeProps (set_sizeProps (sizeRecord w auto) (beforeSizing p st)))
    with (sizeRecord w auto) by (by destruct (beforeSizing p st)).
  replace (adFormatSize (set_sizeProps (sizeRecord w auto) (beforeSizing p st)))
    with (adFormatSize (beforeSizing p st))
    by (by destruct (beforeSizing p st)).
  rewrite sizeBanner_default_height by apply get_sizeRecord_height.
  match goal with
  | |- get (dimensions (bannerThen ?a ?s)) _ = _ =>
      destruct (bannerThen_size a s) as [_ ->]
  end.
  by rewrite get_sizeRecord_height, Hkeep.
Qed.

(** X18: a banner resolution with the adaptive flag off and no declared
    height takes the height of the format size it finds stored, as the
    function [sizeBannerDimensions] and as a pass of the component; the
    format size stored by the tablet answer is 728x90 on a tablet and
    320x50 on a phone, the one stored for an MREC is 300x250 always; so a
    pass that directly follows the tablet answer stores height 90 on a
    tablet and 50 on a phone. *)
Theorem banner_default_height :
  (∀ (sizeProps : JsObject) (screenWidth : Z) (bannerFormatSize : JsObject),
      get sizeProps "height" = auto →
      ∃ width,
        sizeBannerDimensions sizeProps false screenWidth bannerFormatSize
        = Resolved (sizeRecord width (get bannerFormatSize "height")))
  ∧ (∀ (st st' : State) (p : Props),
      adFormat p = BANNER → adaptiveBannerEnabled p = false →
      (getOutlineViewSize (style p)).2 = auto →
      isInitialized st = true → declaredSizeChanged p st = true →
      step st (Render p) = Some st' →
      get (dimensions st') "height" = get (adFormatSize st) "height")
  ∧ (∀ (result : bool) (st : State),
      adFormatSize (tabletThen result st)
      = sizeRecord (VNum (if result then 728 else 320))
                   (VNum (if result then 90 else 50)))
  ∧ (∀ (p : Props) (st : State),
      adFormat p = MREC →
      adFormatSize (formatEffect p st) = sizeRecord (VNum 300) (VNum 250))
  ∧ (∀ (st st1 st2 : State) (result : bool) (p : Props),
      step st (TabletResolved result) = Some st1 →
      adFormat p = BANNER → adaptiveBannerEnabled p = false →
      (getOutlineViewSize (style p)).2 = auto →
      isInitialized st1 = true → declaredSizeChanged p st1 = true →
      step st1 (Render p) = Some st2 →
      get (dimensions st2) "height" = VNum (if result then 90 else 50)).
Proof.
  split_and!.
  - intros sizeProps screenWidth bfs Hh. eexists.
    by apply sizeBanner_default_height.
  - intros st st' p. apply banner_pass_default_height.
  - apply tabletThen_adFormatSize.
  - apply formatEffect_mrec.
  - intros st st1 st2 result p Ht Hp Ha Hh Hi Hc Hstep.
    apply step_tablet in Ht as (Hsize & _ & _).
    rewrite (banner_pass_default_height _ _ _ Hp Ha Hh Hi Hc Hstep), Hsize.
    apply get_sizeRecord_height.
Qed.

Lemma banner_default_height_witness :
  let p := propsOf BANNER false StyleAbsent 390 in
  let st := afterEvents [Render p; InitResolved true] in
  let st1 := afterEvents [Render p; InitResolved true; TabletResolved false] in
  let st2 :=
    afterEvents [Render p; InitResolved true; TabletResolved false; Render p] in
  step st (TabletResolved false) = Some st1
  ∧ step st1 (Render p) = Some st2
  ∧ get (dimensions st2) "height" = VNum 50.
Proof.
  intros p st st1 st2.
  destruct banner_default_height as (_ & _ & _ & _ & Hpass).
  assert (step st (TabletResolved false) = Some st1) as H1
    by (vm_compute; reflexivity).
  assert (step st1 (Render p) = Some st2) as H2
    by (vm_compute; reflexivity).
  split; [exact H1 |]. split; [exact H2 |].
  apply (Hpass st st1 st2 false p H1);
    [reflexivity | reflexivity | reflexivity | reflexivity | reflexivity
    | exact H2].
Defined.

(** ** Notifications *)

Lemma sizingPass_sizeProps p st :
  sizeProps (sizingPass p st)
  = sizeRecord (getOutlineViewSize (style p)).1 (getOutlineViewSize (style p)).2.
Proof.
  unfold sizingPass. destruct (getOutlineViewSize (style p)) as [w h].
  cbn [fst snd]. destruct (adFormat p).
  - destruct (sizeBannerDimensions _ _ _ _) as [a | fw w'].
    + unfold bannerThen, forceUpdate. destruct (_ || _); by state_simpl.
    + by state_simpl.
  - unfold forceUpdate. by state_simpl.
Qed.

Lemma sizingEffect_settles p st :
  isInitialized st = true → noNaN (getOutlineViewSize (style p)) →
  declaredSizeChanged p (sizingEffect p st) = false.
Proof.
  intros Hi [Hw Hh].
  destruct (declaredSizeChanged p st) eqn:Hc.
  - rewrite sizingEffect_runs by done.
    unfold declaredSizeChanged. rewrite sizingPass_sizeProps.
    destruct (getOutlineViewSize (style p)) as [w h]. cbn [fst snd] in *.
    by rewrite get_sizeRecord_width, get_sizeRecord_height, !strictEq_refl.
  - rewrite sizingEffect_skips by (by right). done.
Qed.

Lemma declaredSizeChanged_nan p st :
  ¬ noNaN (getOutlineViewSize (style p)) → declaredSizeChanged p st = true.
Proof.
  intros Hn. unfold declaredSizeChanged.
  destruct (getOutlineViewSize (style p)) as [w h].
  apply negb_true_iff, andb_false_iff.
  destruct (decide (w = VNaN)) as [-> | Hw];
    [left; apply strictEq_nan_r |].
  destruct (decide (h = VNaN)) as [-> | Hh];
    [right; apply strictEq_nan_r |].
  exfalso. by apply Hn.
Qed.

Lemma render_twice st p st1 st2 :
  noNaN (getOutlineViewSize (style p)) →
  step st (Render p) = Some st1 → step st1 (Render p) = Some st2 →
  st2 = beforeSizing p st1.
Proof.
  intros Hn H1 H2. apply (render_step_skips _ _ _ H2).
  apply step_render in H1 as [_ ->].
  destruct (sizingEffect_format_frame p (beforeSizing p st))
    as (_ & Hi & _). cbn zeta in Hi. rewrite Hi.
  destruct (isInitialized (beforeSizing p st)) eqn:Hb; [right | by left].
  by apply sizingEffect_settles.
Qed.

Lemma pairNe_true_differ a b : pairNe a b = true → noNaN b → b ≠ a.
Proof. intros H Hn ->. by rewrite pairNe_same in H. Qed.

Lemma bannerThen_notifies adaptedSize st :
  updates (bannerThen adaptedSize st) ≠ updates st →
  pairNe (resolvedPair st) (resolvedPair (bannerThen adaptedSize st)) = true.
Proof.
  destruct (bannerThen_cases adaptedSize st) as [(_ & _ & ->) | (Hd & _)];
    [done |].
  intros _. unfold resolvedPair at 2.
  by destruct (bannerThen_size adaptedSize st) as [-> ->].
Qed.

Lemma banner_event_notifies st ev st' :
  bannerEvent ev → step st ev = Some st' →
  updates st' ≠ updates st → pairNe (resolvedPair st) (resolvedPair st') = true.
Proof.
  intros Hev Hstep. destruct ev as [p | | | i h | | |]; try done.
  - cbn [bannerEvent] in Hev. apply step_render in Hstep as [_ ->].
    destruct (beforeSizing_frame p st) as (Hu & Hi & _ & Hd & _).
    unfold resolvedPair at 1. rewrite <- Hu, <- Hd.
    fold (resolvedPair (beforeSizing p st)).
    generalize (beforeSizing p st). clear Hu Hi Hd. intros s.
    unfold sizingEffect.
    destruct (isInitialized s); cbn [negb]; [| done].
    destruct (getOutlineViewSize (style p)) as [w h].
    destruct (_ && _); [done |]. rewrite Hev.
    destruct (sizeBannerDimensions _ _ _ _) as [a | fw w'].
    + intros Hn.
      assert (∀ x, updates (set_sizeProps x s) = updates s) as Eu
        by (intros; by destruct s).
      assert (∀ x, dimensions (set_sizeProps x s) = dimensions s) as Ed
        by (intros; by destruct s).
      rewrite <- (Eu (sizeRecord w h)) in Hn.
      unfold resolvedPair at 1. rewrite <- (Ed (sizeRecord w h)).
      by apply (bannerThen_notifies a (set_sizeProps (sizeRecord w h) s)).
    + intros Hn. exfalso. apply Hn. by destruct s.
  - cbn [step] in Hstep.
    destruct (heightQueries st !! i) as [[fw w] |]; [| done].
    injection Hstep as <-. intros Hn.
    assert (∀ x, updates (set_heightQueries x st) = updates st) as Eu
      by (intros; by destruct st).
    assert (∀ x, dimensions (set_heightQueries x st) = dimensions st) as Ed
      by (intros; by destruct st).
    rewrite <- (Eu (delete i (heightQueries st))) in Hn.
    unfold resolvedPair at 1. rewrite <- (Ed (delete i (heightQueries st))).
    by apply (bannerThen_notifies (resume w (VNum h))
                (set_heightQueries (delete i (heightQueries st)) st)).
Qed.

Lemma mrec_pass_notifies st p st' :
  adFormat p = MREC →
  isInitialized st = true → declaredSizeChanged p st = true →
  step st (Render p) = Some st' →
  updates st' = S (updates st).
Proof.
  intros Hp Hi Hc Hstep. rewrite (render_step_runs _ _ _ Hstep Hi Hc).
  destruct (beforeSizing_frame p st) as (<- & _).
  unfold sizingPass. destruct (getOutlineViewSize (style p)) as [w h].
  rewrite Hp. unfold forceUpdate. by destruct (beforeSizing p st).
Qed.

(** C5, as stated, fails on the MREC path: a mounted MREC whose style
    goes from undeclared to the declared 300x250 resolves to the pair it
    already holds and still notifies the host. *)
Lemma mrec_notifies_without_change : ¬ notified_only_on_change.
Proof.
  intros H.
  pose (p0 := propsOf MREC true StyleAbsent 390).
  pose (p1 := propsOf MREC true (StyleObject (sizeRecord (VNum 300) (VNum 250))) 390).
  pose (st := afterEvents [Render p0; InitResolved true; Render p0]).
  pose (st' := afterEvents [Render p0; InitResolved true; Render p0; Render p1]).
  assert (reachable st) as Hr.
  { apply (run_reachable [Render p0; InitResolved true; Render p0] mount);
      [constructor | vm_compute; reflexivity]. }
  apply (H st (Render p1) st' Hr).
  - vm_compute; reflexivity.
  - vm_compute. discriminate.
  - vm_compute; reflexivity.
Qed.

(** C5 (amended): on the banner path the resolved pair is compared
    with the stored pair field by field with [!==], and the host is
    notified only when they differ under that comparison; the pairs then
    differ by value unless the new one holds a NaN.  On the MREC path the
    host is notified by every pass whose declared size differs from that
    of the prior pass, with no comparison of the resolved pairs.  On both
    paths a pass that directly follows a pass with the same inputs
    notifies nobody and stores nothing, provided the declared size holds
    no NaN; a declared NaN is never seen as unchanged by the guard. *)
Theorem notification_policy :
  (∀ (st st' : State) (ev : Event),
      bannerEvent ev → step st ev = Some st' →
      updates st' ≠ updates st →
      pairNe (resolvedPair st) (resolvedPair st') = true
      ∧ (noNaN (resolvedPair st') → resolvedPair st' ≠ resolvedPair st))
  ∧ (∀ (adaptedSize : JsObject) (st : State),
      resolvedPair st = pairOf adaptedSize → noNaN (pairOf adaptedSize) →
      bannerThen adaptedSize st = st)
  ∧ (∀ (st st' : State) (p : Props),
      adFormat p = MREC →
      isInitialized st = true → declaredSizeChanged p st = true →
      step st (Render p) = Some st' →
      updates st' = S (updates st))
  ∧ (∀ (st st1 st2 : State) (p : Props),
      noNaN (getOutlineViewSize (style p)) →
      step st (Render p) = Some st1 → step st1 (Render p) = Some st2 →
      updates st2 = updates st1 ∧ dimensions st2 = dimensions st1
      ∧ heightQueries st2 = heightQueries st1)
  ∧ (∀ (st : State) (p : Props),
      ¬ noNaN (getOutlineViewSize (style p)) →
      declaredSizeChanged p st = true).
Proof.
  split_and!.
  - intros st st' ev Hev Hstep Hu.
    pose proof (banner_event_notifies st ev st' Hev Hstep Hu) as Hne.
    split; [done |]. intros Hn. by apply (pairNe_true_differ _ _ Hne).
  - intros a st [= Hw Hh] Hn. by apply bannerThen_unchanged.
  - intros st st' p. apply mrec_pass_notifies.
  - intros st st1 st2 p Hn H1 H2. rewrite (render_twice _ _ _ _ Hn H1 H2).
    by destruct (beforeSizing_frame p st1) as (-> & _ & _ & -> & -> & _).
  - intros st p. apply declaredSizeChanged_nan.
Qed.

Lemma notification_policy_witness :
  let p := propsOf BANNER false (StyleObject (sizeRecord (VNum 320) (VNum 50))) 390 in
  let st := afterEvents [Render p; InitResolved true] in
  let st1 := afterEvents [Render p; InitResolved true; Render p] in
  let st2 := afterEvents [Render p; InitResolved true; Render p; Render p] in
  step st (Render p) = Some st1 ∧ step st1 (Render p) = Some st2
  ∧ updates st1 = 1 ∧ updates st2 = updates st1
  ∧ dimensions st2 = dimensions st1
  ∧ heightQueries st2 = heightQueries st1.
Proof.
  intros p st st1 st2.
  destruct notification_policy as (_ & _ & _ & Htwice & _).
  assert (step st (Render p) = Some st1) as H1 by (vm_compute; reflexivity).
  assert (step st1 (Render p) = Some st2) as H2 by (vm_compute; reflexivity).
  split; [exact H1 |]. split; [exact H2 |]. split; [reflexivity |].
  apply (Htwice st st1 st2 p); [by split | exact H1 | exact H2].
Defined.

(** ** The render gate *)

Lemma step_isInitialized st ev st' :
  step st ev = Some st' →
  isInitialized st'
  = match ev with InitResolved result => result | _ => isInitialized st end.
Proof.
  intros Hstep. destruct ev as [p | r | r | i h | i | |]; cbn [step] in Hstep.
  - apply step_render in Hstep as [_ ->].
    destruct (sizingEffect_format_frame p (beforeSizing p st)) as (_ & -> & _).
    by destruct (beforeSizing_frame p st) as (_ & -> & _).
  - destruct (tabletQueries st); [done |]. injection Hstep as <-.
    unfold tabletThen. destruct r; by destruct st.
  - destruct (initQueries st); [done |]. injection Hstep as <-.
    unfold initThen. destruct r; by destruct st.
  - destruct (heightQueries st !! i) as [[fw w] |]; [| done].
    injection Hstep as <-. unfold bannerThen, forceUpdate.
    destruct (_ || _); by destruct st.
  - destruct (heightQueries st !! i) as [[fw w] |]; [| done].
    injection Hstep as <-. by destruct st.
  - destruct (mounted st); [| done]. injection Hstep as <-.
    unfold loadAd. destruct (adViewRef st); by destruct st.
  - destruct (mounted st); [| done]. injection Hstep as <-.
    unfold commitRef, saveElement.
    by destruct st as [? ? ? ? ? ? ? ? [e|] ? ? ? ? ? ?].
Qed.

Lemma run_isInitialized evs st st' :
  run st evs = Some st' → isInitialized st' = lastInit (isInitialized st) evs.
Proof.
  revert st. induction evs as [| ev evs IH]; intros st Hrun; cbn in Hrun.
  - by injection Hrun as <-.
  - destruct (step st ev) as [st1 |] eqn:Hstep; [| done].
    rewrite (IH _ Hrun), (step_isInitialized _ _ _ Hstep).
    by destruct ev.
Qed.

Lemma render_some st p v :
  render st p = Some v →
  isInitialized st = true ∧ 0 < keysLength (dimensions st)
  ∧ v = {| view_adFormat := adFormat p;
           view_adaptiveBannerEnabled := adaptiveBannerEnabled p;
           view_style := assign (style p) (dimensions st) |}.
Proof.
  unfold render. destruct (isInitialized st); cbn [negb]; [| done].
  destruct (Nat.ltb_spec 0 (keysLength (dimensions st))); cbn [negb]; [| done].
  by intros [= <-].
Qed.

Lemma render_none st p :
  isInitialized st = false ∨ keysLength (dimensions st) = 0 →
  render st p = None.
Proof.
  unfold render. intros [-> | ->]; [done |].
  by destruct (isInitialized st).
Qed.

Lemma step_init_false st st' :
  step st (InitResolved false) = Some st' →
  warnings st' = S (warnings st) ∧ isInitialized st' = false
  ∧ S (initQueries st') = initQueries st
  ∧ tabletQueries st' = tabletQueries st
  ∧ heightQueries st' = heightQueries st.
Proof.
  cbn [step]. destruct (initQueries st) as [| n] eqn:Hq; [done |].
  intros [= <-]. unfold initThen. cbn [negb].
  destruct st; cbn in *. by subst.
Qed.

Lemma render_same_format_no_query st p st' :
  effectFormat st = Some (adFormat p) →
  step st (Render p) = Some st' →
  initQueries st' = initQueries st ∧ tabletQueries st' = tabletQueries st.
Proof.
  intros He Hstep. apply step_render in Hstep as [_ ->].
  destruct (sizingEffect_format_frame p (beforeSizing p st))
    as (_ & _ & _ & -> & ->).
  unfold beforeSizing, runFormatEffect.
  destruct (commitRef_format_frame (render st p) st)
    as (_ & _ & Hf & Ht & Hq).
  rewrite Hf, He. by rewrite bool_decide_eq_true_2.
Qed.

(** The state reached when the initialization answer overtakes the
    tablet answer of a banner without adaptive sizing. *)
Lemma overtaken_tablet_query (screenWidth : Z) :
  let p := propsOf BANNER false StyleAbsent screenWidth in
  let st := afterEvents [Render p; InitResolved true; Render p] in
  run mount [Render p; InitResolved true; Render p] = Some st
  ∧ tabletQueries st = 1 ∧ adFormatSize st = ∅
  ∧ dimensions st = sizeRecord (VNum screenWidth) VUndefined
  ∧ render st p
    = Some {| view_adFormat := BANNER;
              view_adaptiveBannerEnabled := false;
              view_style := sizeRecord (VNum screenWidth) VUndefined |}.
Proof. cbn zeta. repeat split; vm_compute; reflexivity. Qed.

(** The gate as the specification words it does not hold: when the
    initialization answer overtakes the tablet answer, a banner without
    adaptive sizing is rendered with a stored size whose height is
    undefined. *)
Lemma view_rendered_without_height : ¬ view_only_when_fully_sized.
Proof.
  intros H.
  pose (p := propsOf BANNER false StyleAbsent 390).
  destruct (overtaken_tablet_query 390) as (Hrun & _ & _ & Hd & Hv).
  cbn zeta in Hrun, Hd, Hv. fold p in Hrun, Hd, Hv.
  destruct (H _ p _ (run_reachable _ _ _ reachable_mount Hrun) Hv)
    as (_ & _ & Hh & _).
  apply Hh. by rewrite Hd, get_sizeRecord_height.
Qed.

(** C6 (defect): the gate lets a partly resolved size through.  For a
    banner without adaptive sizing and without a declared height, on any
    screen width, when the initialization answer arrives while the tablet
    query is still outstanding, the component reaches a state in which
    the initialization flag is true and the stored size has its two keys,
    so the gate is passed and the native view is rendered, although the
    stored height is undefined: the size is not one without unspecified
    fields. *)
Theorem gate_passes_undefined_height (screenWidth : Z) :
  let p := propsOf BANNER false StyleAbsent screenWidth in
  let st := afterEvents [Render p; InitResolved true; Render p] in
  reachable st
  ∧ isInitialized st = true
  ∧ keysLength (dimensions st) = 2
  ∧ get (dimensions st) "height" = VUndefined
  ∧ ¬ fullySized (dimensions st)
  ∧ is_Some (render st p).
Proof.
  intros p st.
  destruct (overtaken_tablet_query screenWidth) as (Hrun & _ & _ & Hd & Hv).
  cbn zeta in Hrun, Hd, Hv. fold p in Hrun, Hd, Hv. fold st in Hrun, Hd, Hv.
  split_and!.
  - exact (run_reachable _ _ _ reachable_mount Hrun).
  - by apply render_some in Hv as (Hi & _).
  - rewrite Hd. apply keysLength_sizeRecord.
  - by rewrite Hd, get_sizeRecord_height.
  - intros (_ & Hh & _). apply Hh. by rewrite Hd, get_sizeRecord_height.
  - by rewrite Hv.
Qed.

(** C4 (defect): the banner height is not the format default when the
    resolution runs before the tablet answer.  For a banner without
    adaptive sizing and without a declared height, on any screen width
    and on a phone as on a tablet, when the initialization answer
    overtakes the tablet answer the resolution stores an undefined
    height; the tablet answer then stores the format size with height 50
    or 90, but the stored height stays undefined, also after a further
    render pass. *)
Theorem banner_height_undefined_after_race (screenWidth : Z) (result : bool) :
  let p := propsOf BANNER false StyleAbsent screenWidth in
  let evs := [Render p; InitResolved true; Render p;
              TabletResolved result; Render p] in
  let st := afterEvents evs in
  run mount evs = Some st
  ∧ get (adFormatSize st) "height" = VNum (if result then 90 else 50)
  ∧ get (dimensions st) "width" = VNum screenWidth
  ∧ get (dimensions st) "height" = VUndefined
  ∧ get (dimensions st) "height" ≠ VNum (if result then 90 else 50).
Proof.
  intros p evs st. subst st evs p.
  destruct result; split_and!; try (vm_compute; reflexivity);
    vm_compute; discriminate.
Qed.

(** X19: the gate the component has.  Along every trace of a mount the
    native view is rendered only when the last initialization answer was
    true and a size record has been stored (the stored dimensions have at
    least one key), and then with the stored dimensions laid over the own
    properties of the style prop; when either fails the render output is
    [null].  An
    initialization answer of false logs one warning, leaves every later
    render empty until a new answer arrives, and issues no new query; nor
    does a later render pass with the same format. *)
Theorem view_gating :
  (∀ (evs : list Event) (st : State) (p : Props) (v : AdViewComponentProps),
      run mount evs = Some st → render st p = Some v →
      lastInit false evs = true ∧ isInitialized st = true
      ∧ 0 < keysLength (dimensions st)
      ∧ view_style v = assign (style p) (dimensions st))
  ∧ (∀ (st : State) (p : Props),
      isInitialized st = false ∨ keysLength (dimensions st) = 0 →
      render st p = None)
  ∧ (∀ (st st' : State),
      step st (InitResolved false) = Some st' →
      warnings st' = S (warnings st)
      ∧ S (initQueries st') = initQueries st
      ∧ tabletQueries st' = tabletQueries st
      ∧ heightQueries st' = heightQueries st
      ∧ ∀ p, render st' p = None)
  ∧ (∀ (st st' : State) (p : Props),
      effectFormat st = Some (adFormat p) →
      step st (Render p) = Some st' →
      initQueries st' = initQueries st ∧ tabletQueries st' = tabletQueries st).
Proof.
  split; [| split; [| split]].
  - intros evs st p v Hrun Hv.
    apply render_some in Hv as (Hi & Hk & ->).
    apply run_isInitialized in Hrun. cbn in Hrun.
    rewrite <- Hrun. done.
  - apply render_none.
  - intros st st' Hstep.
    apply step_init_false in Hstep as (Hw & Hi & Hq & Ht & Hh).
    repeat split; try done. intros p. apply render_none. by left.
  - intros st st' p. apply render_same_format_no_query.
Qed.

Lemma view_gating_witness :
  let p := propsOf MREC true StyleAbsent 390 in
  let st := afterEvents [Render p; InitResolved true; Render p] in
  run mount [Render p; InitResolved true; Render p] = Some st
  ∧ is_Some (render st p)
  ∧ isInitialized st = true ∧ 0 < keysLength (dimensions st).
Proof.
  intros p st.
  destruct view_gating as (Hgate & _).
  assert (run mount [Render p; InitResolved true; Render p] = Some st) as Hrun
    by (vm_compute; reflexivity).
  assert (render st p
          = Some {| view_adFormat := MREC;
                    view_adaptiveBannerEnabled := true;
                    view_style := sizeRecord (VNum 300) (VNum 250) |}) as Hv
    by (vm_compute; reflexivity).
  split; [exact Hrun |]. split; [by rewrite Hv |].
  destruct (Hgate _ st p _ Hrun Hv) as (_ & Hi & Hk & _).
  by split.
Defined.

(** C9: there is a reachable state -- a banner without adaptive sizing
    and without a declared height, whose initialization answer arrived
    while the tablet query is still outstanding and the stored format
    size still empty -- in which the stored size has an undefined height
    and the native view is rendered with it. *)
Theorem banner_rendered_with_undefined_height (screenWidth : Z) :
  let p := propsOf BANNER false StyleAbsent screenWidth in
  ∃ (st : State) (v : AdViewComponentProps),
    reachable st
    ∧ run mount [Render p; InitResolved true; Render p] = Some st
    ∧ tabletQueries st = 1 ∧ adFormatSize st = ∅
    ∧ get (dimensions st) "width" = VNum screenWidth
    ∧ get (dimensions st) "height" = VUndefined
    ∧ render st p = Some v
    ∧ get (view_style v) "height" = VUndefined.
Proof.
  intros p.
  destruct (overtaken_tablet_query screenWidth) as (Hrun & Ht & Hf & Hd & Hv).
  cbn zeta in Hrun, Ht, Hf, Hd, Hv. fold p in Hrun, Ht, Hf, Hd, Hv.
  eexists _, _. split_and!.
  - exact (run_reachable _ _ _ reachable_mount Hrun).
  - exact Hrun.
  - exact Ht.
  - exact Hf.
  - by rewrite Hd, get_sizeRecord_width.
  - by rewrite Hd, get_sizeRecord_height.
  - exact Hv.
  - cbn [view_style]. by rewrite get_sizeRecord_height.
Qed.

(** ** The imperative handle *)

Lemma sizingEffect_ref_frame p st :
  adViewRef (sizingEffect p st) = adViewRef st
  ∧ view (sizingEffect p st) = view st
  ∧ commands (sizingEffect p st) = commands st.
Proof.
  unfold sizingEffect.
  destruct (isInitialized st); cbn [negb]; [| done].
  destruct (getOutlineViewSize (style p)) as [w h].
  destruct (_ && _); [done |].
  destruct (adFormat p).
  - destruct (sizeBannerDimensions _ _ _ _) as [a | fw w'].
    + unfold bannerThen, forceUpdate. destruct (_ || _); by destruct st.
    + by destruct st.
  - unfold forceUpdate. by destruct st.
Qed.

Lemma runFormatEffect_ref_frame p st :
  adViewRef (runFormatEffect p st) = adViewRef st
  ∧ view (runFormatEffect p st) = view st
  ∧ commands (runFormatEffect p st) = commands st.
Proof.
  unfold runFormatEffect, formatEffect.
  case_bool_decide; [done |]. destruct (adFormat p); by destruct st.
Qed.

Lemma step_keeps_no_ref st ev st' :
  adViewRef st = None → view st = None →
  match ev with Render p => render st p = None | _ => True end →
  step st ev = Some st' →
  adViewRef st' = None ∧ view st' = None ∧ commands st' = commands st.
Proof.
  intros Hr Hv Hev Hstep.
  destruct ev as [p | r | r | i h | i | |]; cbn [step] in Hstep.
  - apply step_render in Hstep as [_ ->].
    destruct (sizingEffect_ref_frame p (beforeSizing p st)) as (-> & -> & ->).
    unfold beforeSizing.
    destruct (runFormatEffect_ref_frame p (commitRef (render st p) st))
      as (-> & -> & ->).
    rewrite Hev. unfold commitRef. by rewrite Hv.
  - destruct (tabletQueries st); [done |]. injection Hstep as <-.
    unfold tabletThen. destruct r; by destruct st.
  - destruct (initQueries st); [done |]. injection Hstep as <-.
    unfold initThen. destruct r; by destruct st.
  - destruct (heightQueries st !! i) as [[fw w] |]; [| done].
    injection Hstep as <-. unfold bannerThen, forceUpdate.
    destruct (_ || _); by destruct st.
  - destruct (heightQueries st !! i) as [[fw w] |]; [| done].
    injection Hstep as <-. by destruct st.
  - destruct (mounted st); [| done]. injection Hstep as <-.
    unfold loadAd. by rewrite Hr.
  - destruct (mounted st); [| done]. injection Hstep as <-.
    unfold commitRef, saveElement. destruct st; cbn in *. by subst.
Qed.

Lemma rendered_nothing_no_ref evs st st' :
  adViewRef st = None → view st = None →
  renderedNothing st evs = true → run st evs = Some st' →
  adViewRef st' = None ∧ view st' = None ∧ commands st' = commands st.
Proof.
  revert st. induction evs as [| ev evs IH]; intros st Hr Hv Hn Hrun;
    cbn in Hrun.
  - by injection Hrun as <-.
  - cbn [renderedNothing] in Hn.
    destruct (step st ev) as [st1 |] eqn:Hstep; [| done].
    apply andb_true_iff in Hn as [Hev Hn].
    destruct (step_keeps_no_ref st ev st1 Hr Hv) as (Hr1 & Hv1 & <-);
      [| done |].
    + destruct ev; try done. by apply bool_decide_eq_true in Hev.
    + by apply (IH st1).
Qed.

(** C10: as long as every render pass of the mount has returned [null],
    no native view reference has been saved and no command has been
    dispatched, and a call of the imperative [loadAd] handle dispatches no
    view-manager command and leaves the whole component state as it
    was. *)
Theorem loadAd_before_view_is_noop (evs : list Event) (st : State) :
  run mount evs = Some st → renderedNothing mount evs = true →
  adViewRef st = None
  ∧ loadAd st = st
  ∧ commands (loadAd st) = []
  ∧ ∀ st', step st LoadAd = Some st' → st' = st.
Proof.
  intros Hrun Hn.
  destruct (rendered_nothing_no_ref evs mount st eq_refl eq_refl Hn Hrun)
    as (Hr & _ & Hc).
  assert (loadAd st = st) as Hl by (unfold loadAd; by rewrite Hr).
  split; [done |]. split; [done |]. split; [by rewrite Hl |].
  intros st'. cbn [step]. destruct (mounted st); [| done].
  intros [= <-]. done.
Qed.

Lemma loadAd_before_view_is_noop_witness :
  let p := propsOf BANNER true StyleAbsent 390 in
  let st := afterEvents [Render p; LoadAd; InitResolved true; Render p] in
  run mount [Render p; LoadAd; InitResolved true; Render p] = Some st
  ∧ step st LoadAd = Some st ∧ commands st = [].
Proof.
  intros p st.
  assert (run mount [Render p; LoadAd; InitResolved true; Render p] = Some st)
    as Hrun by (vm_compute; reflexivity).
  destruct (loadAd_before_view_is_noop _ st Hrun) as (_ & Hl & Hc & _);
    [vm_compute; reflexivity |].
  split; [exact Hrun |]. split.
  - change (step st LoadAd) with (Some (loadAd st)). by rewrite Hl.
  - by rewrite <- Hl.
Defined.

Example loadAd_after_view_dispatches :
  let p := propsOf MREC true StyleAbsent 390 in
  commands
    (afterEvents [Render p; InitResolved true; Render p; Render p; LoadAd])
  = [0].
Proof. vm_compute. reflexivity. Qed.

(** ** Late answers of the height query *)

Lemma step_height st i forWidth width h :
  heightQueries st !! i = Some (forWidth, width) →
  step st (HeightResolved i h)
  = Some (bannerThen (resume width (VNum h))
            (set_heightQueries (delete i (heightQueries st)) st)).
Proof. intros Hq. cbn [step]. by rewrite Hq. Qed.

(** C7, as stated, fails: an answer that arrives after the unmount, and
    an answer to a query that a newer query has followed, are both stored
    and both dispatch [forceUpdate]. *)
Lemma late_answers_are_stored :
  ¬ discarded_after_unmount ∧ ¬ discarded_when_superseded.
Proof.
  pose (p0 := propsOf BANNER true StyleAbsent 390).
  pose (p1 := propsOf BANNER true (StyleObject {["width" := VNum 200]}) 390).
  split; intros H.
  - pose (evs := [Render p0; InitResolved true; Render p0; Unmount]).
    assert (reachable (afterEvents evs)) as Hr.
    { apply (run_reachable evs mount);
        [constructor | vm_compute; reflexivity]. }
    destruct (H (afterEvents evs) 0 60%Z
                (afterEvents (evs ++ [HeightResolved 0 60])%list) Hr)
      as [_ Hu]; [vm_compute; reflexivity | vm_compute; reflexivity |].
    vm_compute in Hu. discriminate Hu.
  - pose (evs := [Render p0; InitResolved true; Render p0; Render p1]).
    assert (reachable (afterEvents evs)) as Hr.
    { apply (run_reachable evs mount);
        [constructor | vm_compute; reflexivity]. }
    destruct (H (afterEvents evs) 0 60%Z
                (afterEvents (evs ++ [HeightResolved 0 60])%list) Hr)
      as [_ Hu]; [vm_compute; lia | vm_compute; reflexivity |].
    vm_compute in Hu. discriminate Hu.
Qed.

(** C7 (amended): an answer to an outstanding height query is taken
    whenever it arrives, mounted or not and whatever queries were issued
    after it: the pair made of the width computed at the request and the
    answered height is compared by value with the stored pair; when they
    differ it replaces the stored dimensions and [forceUpdate] is
    dispatched, when they are equal nothing changes but the queue.  The
    comparison is the callback's [!==]: a NaN width always counts as
    different. *)
Theorem late_answer_applied
    (st : State) (i : nat) (forWidth : Z) (width : Value) (h : Z) :
  heightQueries st !! i = Some (forWidth, width) →
  ∃ st',
    step st (HeightResolved i h) = Some st'
    ∧ heightQueries st' = delete i (heightQueries st)
    ∧ resolvedPair st' = (width, VNum h)
    ∧ (resolvedPair st ≠ (width, VNum h) →
       dimensions st' = resume width (VNum h)
       ∧ updates st' = S (updates st))
    ∧ (resolvedPair st = (width, VNum h) → width ≠ VNaN →
       dimensions st' = dimensions st ∧ updates st' = updates st)
    ∧ (width = VNaN →
       dimensions st' = resume width (VNum h)
       ∧ updates st' = S (updates st)).
Proof.
  intros Hq. eexists. split; [exact (step_height _ _ _ _ h Hq) |].
  set (s := set_heightQueries (delete i (heightQueries st)) st).
  assert (dimensions s = dimensions st ∧ updates s = updates st
          ∧ heightQueries s = delete i (heightQueries st)) as (Ed & Eu & Eq)
    by (subst s; by destruct st).
  assert (pairOf (resume width (VNum h)) = (width, VNum h)) as Ep.
  { unfold pairOf, resume.
    by rewrite get_sizeRecord_width, get_sizeRecord_height. }
  split; [by rewrite bannerThen_heightQueries |].
  split.
  { unfold resolvedPair.
    destruct (bannerThen_size (resume width (VNum h)) s) as [-> ->].
    exact Ep. }
  assert (resolvedPair s = resolvedPair st) as Er
    by (unfold resolvedPair; by rewrite Ed).
  rewrite <- Er, <- Ed, <- Eu, <- Ep. rewrite bannerThen_pairNe.
  split_and!.
  - intros Hne. rewrite (pairNe_differ _ _ Hne).
    unfold forceUpdate. by destruct s.
  - intros He Hn. rewrite He, pairNe_same; [done |].
    rewrite Ep. by split.
  - intros Hn. rewrite pairNe_nan.
    + unfold forceUpdate. by destruct s.
    + rewrite Ep. by intros [Hw _].
Qed.

Lemma late_answer_applied_witness :
  let p0 := propsOf BANNER true StyleAbsent 390 in
  let p1 := propsOf BANNER true (StyleObject {["width" := VNum 200]}) 390 in
  let st :=
    afterEvents [Render p0; InitResolved true; Render p0; Render p1;
                 HeightResolved 1 60] in
  heightQueries st !! 0 = Some (390%Z, VNum 390)
  ∧ resolvedPair st = (VNum 200, VNum 60)
  ∧ ∃ st',
      step st (HeightResolved 0 61) = Some st'
      ∧ resolvedPair st' = (VNum 390, VNum 61)
      ∧ updates st' = S (updates st).
Proof.
  intros p0 p1 st.
  assert (heightQueries st !! 0 = Some (390%Z, VNum 390)) as Hq
    by (vm_compute; reflexivity).
  split; [exact Hq |]. split; [vm_compute; reflexivity |].
  destruct (late_answer_applied st 0 390 (VNum 390) 61 Hq)
    as (st' & Hstep & _ & Hp & Hne & _).
  exists st'. split; [exact Hstep |]. split; [exact Hp |].
  apply Hne. vm_compute. discriminate.
Defined.

(** ** Preload and destroy *)



(** * Further properties of the component *)

(** ** The style outline and the banner promise *)

Lemma coalesce_auto v : coalesce v auto = auto ↔ ¬ concrete v.
Proof.
  unfold concrete. split.
  - intros Hc (H1 & H2 & H3). destruct v; cbn in Hc; done.
  - intros Hn. destruct v as [| | n | | s | i]; cbn; try done.
    + exfalso. apply Hn. by split_and!.
    + exfalso. apply Hn. by split_and!.
    + destruct (decide (VStr s = auto)) as [-> | Hs]; [done |].
      exfalso. apply Hn. by split_and!.
    + exfalso. apply Hn. by split_and!.
Qed.

Lemma coalesce_nonNullish v : nonNullish (coalesce v auto).
Proof. unfold nonNullish, auto. by destruct v. Qed.

(** X1: the outline of a style never holds [undefined] or [null]: a
    missing style, a missing key and a [null] all read as ['auto'], and a
    declared dimension of the flattened style is returned as it is. *)
Theorem outline_never_nullish (style : StyleProp) :
  nonNullish (getOutlineViewSize style).1
  ∧ nonNullish (getOutlineViewSize style).2
  ∧ ((getOutlineViewSize style).1 = auto
     ↔ ¬ concrete (get (flatStyle style) "width"))
  ∧ ((getOutlineViewSize style).2 = auto
     ↔ ¬ concrete (get (flatStyle style) "height"))
  ∧ (concrete (get (flatStyle style) "width") →
     (getOutlineViewSize style).1 = get (flatStyle style) "width")
  ∧ (concrete (get (flatStyle style) "height") →
     (getOutlineViewSize style).2 = get (flatStyle style) "height").
Proof.
  rewrite outline_flatStyle. cbn [fst snd].
  generalize (get (flatStyle style) "width") as w.
  generalize (get (flatStyle style) "height") as h.
  intros h w. split_and!.
  - apply coalesce_nonNullish.
  - apply coalesce_nonNullish.
  - apply coalesce_auto.
  - apply coalesce_auto.
  - intros (H1 & H2 & _). by apply coalesce_concrete.
  - intros (H1 & H2 & _). by apply coalesce_concrete.
Qed.

Lemma outline_never_nullish_witness :
  let style : StyleProp :=
    StyleArray [StyleObject {["width" := VNum 320; "height" := VStr "50%"]};
                StyleAbsent;
                StyleObject {["width" := VNull]}] in
  (getOutlineViewSize style).1 = auto
  ∧ (getOutlineViewSize style).2 = VStr "50%".
Proof.
  intros style.
  destruct (outline_never_nullish style) as (_ & _ & Hw & _ & _ & Hh).
  split.
  - apply Hw. intros (_ & H & _). by apply H.
  - rewrite Hh; [reflexivity |]. by split_and!.
Defined.

Lemma outline_nonNullish style :
  nonNullish (getOutlineViewSize style).1
  ∧ nonNullish (getOutlineViewSize style).2.
Proof.
  rewrite outline_flatStyle. cbn [fst snd].
  split; apply coalesce_nonNullish.
Qed.

(** X2: [sizeBannerDimensions] suspends on the native height query
    exactly when the adaptive flag is set and no height is declared, and
    then asks about the screen width; in every other case it resolves at
    once to an object with exactly the two keys width and height. *)
Theorem banner_promise_shape
    (sizeProps : JsObject) (adaptive : bool) (screenWidth : Z)
    (bannerFormatSize : JsObject) :
  match sizeBannerDimensions sizeProps adaptive screenWidth bannerFormatSize with
  | AwaitHeight forWidth _ =>
      adaptive = true ∧ get sizeProps "height" = auto ∧ forWidth = screenWidth
  | Resolved size =>
      (adaptive = false ∨ get sizeProps "height" ≠ auto)
      ∧ keysLength size = 2
      ∧ size = sizeRecord (get size "width") (get size "height")
  end.
Proof.
  unfold sizeBannerDimensions.
  destruct (strictEq (get sizeProps "height") auto) eqn:Hh.
  - apply strictEq_auto in Hh. destruct adaptive; [done |].
    rewrite keysLength_sizeRecord, get_sizeRecord_width, get_sizeRecord_height.
    split_and!; [by left | done | done].
  - apply strictEq_auto_false in Hh.
    rewrite keysLength_sizeRecord, get_sizeRecord_width, get_sizeRecord_height.
    split_and!; [by right | done | done].
Qed.

(** ** Passes that are cut short *)

Lemma declaredSizeChanged_outline p1 p2 st :
  getOutlineViewSize (style p1) = getOutlineViewSize (style p2) →
  declaredSizeChanged p2 st = declaredSizeChanged p1 st.
Proof. unfold declaredSizeChanged. by intros ->. Qed.

(** X3: once a render pass has run, a directly following pass that
    declares the same size stores nothing, notifies nobody and issues no
    height query, whatever its screen width, adaptive flag and format,
    provided the declared size holds no NaN: neither a rotation nor a
    change of the adaptive flag re-sizes the ad without a change of the
    declared size.  A declared NaN is never seen as unchanged by the
    guard: every pass of an initialized component over it resolves again,
    and for an MREC notifies again. *)
Theorem same_style_pass_is_silent :
  (∀ (st st1 st2 : State) (p1 p2 : Props),
      getOutlineViewSize (style p1) = getOutlineViewSize (style p2) →
      noNaN (getOutlineViewSize (style p1)) →
      step st (Render p1) = Some st1 → step st1 (Render p2) = Some st2 →
      dimensions st2 = dimensions st1 ∧ updates st2 = updates st1
      ∧ heightQueries st2 = heightQueries st1
      ∧ sizeProps st2 = sizeProps st1)
  ∧ (∀ (st st' : State) (p : Props),
      ¬ noNaN (getOutlineViewSize (style p)) →
      isInitialized st = true → step st (Render p) = Some st' →
      st' = sizingPass p (beforeSizing p st)
      ∧ (adFormat p = MREC → updates st' = S (updates st))).
Proof.
  split.
  - intros st st1 st2 p1 p2 Hs Hn H1 H2.
    assert (st2 = beforeSizing p2 st1) as ->.
    { apply (render_step_skips _ _ _ H2).
      rewrite (declaredSizeChanged_outline p1 p2 _ Hs).
      apply step_render in H1 as [_ ->].
      destruct (sizingEffect_format_frame p1 (beforeSizing p1 st))
        as (_ & Hi & _). cbn zeta in Hi. rewrite Hi.
      destruct (isInitialized (beforeSizing p1 st)) eqn:Hb; [right | by left].
      by apply sizingEffect_settles. }
    by destruct (beforeSizing_frame p2 st1) as (-> & _ & -> & -> & -> & _).
  - intros st st' p Hn Hi Hstep.
    pose proof (declaredSizeChanged_nan p st Hn) as Hc.
    split; [by apply render_step_runs |].
    intros Hp. by apply (mrec_pass_notifies st p st').
Qed.

Lemma same_style_pass_is_silent_witness :
  let p1 := propsOf BANNER false StyleAbsent 390 in
  let p2 := propsOf BANNER true (StyleArray []) 844 in
  let st := afterEvents [Render p1; TabletResolved false; InitResolved true] in
  let st1 :=
    afterEvents [Render p1; TabletResolved false; InitResolved true; Render p1] in
  let st2 :=
    afterEvents [Render p1; TabletResolved false; InitResolved true; Render p1;
                 Render p2] in
  step st (Render p1) = Some st1 ∧ step st1 (Render p2) = Some st2
  ∧ resolvedPair st1 = (VNum 390, VNum 50)
  ∧ dimensions st2 = dimensions st1 ∧ updates st2 = updates st1.
Proof.
  intros p1 p2 st st1 st2.
  destruct same_style_pass_is_silent as [Hsilent _].
  assert (step st (Render p1) = Some st1) as H1 by (vm_compute; reflexivity).
  assert (step st1 (Render p2) = Some st2) as H2 by (vm_compute; reflexivity).
  destruct (Hsilent st st1 st2 p1 p2 eq_refl) as (Hd & Hu & _);
    [by split | exact H1 | exact H2 |].
  split_and!; [exact H1 | exact H2 | vm_compute; reflexivity | exact Hd
              | exact Hu].
Defined.

(** ** The shape of the stored sizes *)

Lemma concrete_num n : concrete (VNum n).
Proof. by split_and!. Qed.

Lemma concrete_declared v : nonNullish v → v ≠ auto → concrete v.
Proof. intros [H1 H2] H3. by split_and!. Qed.

Lemma numericSize_get o :
  numericSize o →
  concrete (get o "width") ∧ concrete (get o "height").
Proof.
  intros (w & h & ->). rewrite get_sizeRecord_width, get_sizeRecord_height.
  split; apply concrete_num.
Qed.

Lemma shapeInv_fields strict st st' :
  adFormatSize st' = adFormatSize st → effectFormat st' = effectFormat st →
  dimensions st' = dimensions st → heightQueries st' = heightQueries st →
  shapeInv strict st → shapeInv strict st'.
Proof. unfold shapeInv. by intros -> -> -> ->. Qed.

Lemma bannerThen_fields a s :
  adFormatSize (bannerThen a s) = adFormatSize s
  ∧ effectFormat (bannerThen a s) = effectFormat s
  ∧ heightQueries (bannerThen a s) = heightQueries s
  ∧ (dimensions (bannerThen a s) = dimensions s
     ∨ dimensions (bannerThen a s) = a).
Proof.
  destruct (bannerThen_cases a s) as [(_ & _ & ->) | (_ & ->)].
  - split_and!; [done | done | done | by left].
  - unfold forceUpdate. destruct s; cbn. split_and!; [done | done | done | by right].
Qed.

Lemma bannerThen_shape strict w h s :
  concrete w → heightOk strict h →
  shapeInv strict s → shapeInv strict (bannerThen (sizeRecord w h) s).
Proof.
  intros Hw Hh (Hf & Hm & Hd & Hq).
  destruct (bannerThen_fields (sizeRecord w h) s) as (Ef & Ee & Eq & Ed).
  unfold shapeInv. rewrite Ef, Ee, Eq. split_and!; try done.
  destruct Ed as [-> | ->]; [done |]. right. by exists w, h.
Qed.

Lemma beforeSizing_shape strict p st :
  shapeInv strict st →
  shapeInv strict (beforeSizing p st)
  ∧ (adFormat p = MREC → numericSize (adFormatSize (beforeSizing p st))).
Proof.
  intros HI. unfold beforeSizing.
  assert (shapeInv strict (commitRef (render st p) st)) as Hc.
  { destruct (commitRef_format_frame (render st p) st) as (Ha & _ & He & _).
    pose proof (commitRef_sizingView (render st p) st) as Hv.
    unfold sizingView in Hv. injection Hv as _ _ _ _ Hd Hq.
    by apply (shapeInv_fields strict st). }
  generalize dependent (commitRef (render st p) st). clear HI st.
  intros s (Hf & Hm & Hd & Hq).
  unfold runFormatEffect, formatEffect, shapeInv.
  case_bool_decide as He.
  - split; [done |]. intros Hp. apply Hm. by rewrite He, Hp.
  - destruct (adFormat p) eqn:Hp; destruct s; cbn in *.
    + split; [| done]. split_and!; done.
    + assert (numericSize
                (sizeRecord (VNum (size_width (mrec ADVIEW_SIZE)))
                            (VNum (size_height (mrec ADVIEW_SIZE))))) as Hn
        by (by eexists _, _).
      split; [| done]. split_and!; try done. by right.
Qed.

Lemma sizingPass_shape strict p s :
  (strict = true → adFormat p = MREC ∨ adaptiveBannerEnabled p = true) →
  (adFormat p = MREC → numericSize (adFormatSize s)) →
  shapeInv strict s → shapeInv strict (sizingPass p s).
Proof.
  intros Hstrict Hmrec HI. unfold sizingPass.
  destruct (outline_nonNullish (style p)) as [Hw Hh].
  destruct (getOutlineViewSize (style p)) as [w h]. cbn [fst snd] in Hw, Hh.
  set (s1 := set_sizeProps (sizeRecord w h) s).
  assert (shapeInv strict s1) as HI1
    by (apply (shapeInv_fields strict s); subst s1; by destruct s).
  assert (adFormatSize s1 = adFormatSize s) as Ef by (subst s1; by destruct s).
  assert (sizeProps s1 = sizeRecord w h) as Es by (subst s1; by destruct s).
  destruct (adFormat p) eqn:Hp.
  - rewrite Es. unfold sizeBannerDimensions.
    rewrite get_sizeRecord_width, get_sizeRecord_height.
    assert (concrete (if strictEq w auto then VNum (screenWidth p) else w))
      as Hcw.
    { destruct (strictEq w auto) eqn:E; [apply concrete_num |].
      apply strictEq_auto_false in E. by apply concrete_declared. }
    destruct (strictEq h auto) eqn:Eh.
    + destruct (adaptiveBannerEnabled p) eqn:Ha.
      * destruct HI1 as (Hf & Hm & Hd & Hq).
        unfold shapeInv.
        replace (adFormatSize (set_heightQueries _ s1)) with (adFormatSize s1)
          by (by destruct s1).
        replace (effectFormat (set_heightQueries _ s1)) with (effectFormat s1)
          by (by destruct s1).
        replace (dimensions (set_heightQueries _ s1)) with (dimensions s1)
          by (by destruct s1).
        split_and!; try done.
        replace (heightQueries (set_heightQueries
                   (heightQueries s1 ++ [(screenWidth p,
                      if strictEq w auto then VNum (screenWidth p) else w)])%list
                   s1))
          with (heightQueries s1 ++ [(screenWidth p,
                  if strictEq w auto then VNum (screenWidth p) else w)])%list
          by (by destruct s1).
        apply Forall_app. split; [done |]. by apply Forall_singleton.
      * apply bannerThen_shape; [done | | done].
        destruct strict.
        { destruct (Hstrict eq_refl) as [? | ?]; done. }
        rewrite Ef. destruct HI as ([-> | Hn] & _).
        -- right. done.
        -- left. by apply numericSize_get.
    + apply strictEq_auto_false in Eh.
      apply bannerThen_shape; [done | | done].
      left. by apply concrete_declared.
  - destruct (numericSize_get _ (Hmrec eq_refl)) as [Hnw Hnh].
    rewrite Ef. destruct HI1 as (Hf & Hm & Hd & Hq).
    unfold shapeInv, forceUpdate.
    match goal with
    | |- context [set_dimensions ?d s1] =>
        replace (adFormatSize (set_updates (S (updates (set_dimensions d s1)))
                                 (set_dimensions d s1)))
          with (adFormatSize s1) by (by destruct s1);
        replace (effectFormat (set_updates (S (updates (set_dimensions d s1)))
                                 (set_dimensions d s1)))
          with (effectFormat s1) by (by destruct s1);
        replace (heightQueries (set_updates (S (updates (set_dimensions d s1)))
                                  (set_dimensions d s1)))
          with (heightQueries s1) by (by destruct s1);
        replace (dimensions (set_updates (S (updates (set_dimensions d s1)))
                               (set_dimensions d s1)))
          with d by (by destruct s1)
    end.
    split_and!; try done. right. eexists _, _. split; [reflexivity |].
    split.
    + destruct (strictEq w auto) eqn:E; [done |].
      apply strictEq_auto_false in E. by apply concrete_declared.
    + left. destruct (strictEq h auto) eqn:E; [done |].
      apply strictEq_auto_false in E. by apply concrete_declared.
Qed.

Lemma shapeInv_step strict st ev st' :
  shapeInv strict st →
  (strict = true →
   match ev with
   | Render p => adFormat p = MREC ∨ adaptiveBannerEnabled p = true
   | _ => True
   end) →
  step st ev = Some st' → shapeInv strict st'.
Proof.
  intros HI Hev Hstep.
  destruct ev as [p | r | r | i h | i | |]; cbn [step] in Hstep.
  - apply step_render in Hstep as [_ ->].
    destruct (beforeSizing_shape strict p st HI) as [Hb Hm].
    destruct (isInitialized (beforeSizing p st)) eqn:Hi;
      [destruct (declaredSizeChanged p (beforeSizing p st)) eqn:Hc |].
    + rewrite sizingEffect_runs by done. by apply sizingPass_shape.
    + rewrite sizingEffect_skips by (by right). done.
    + rewrite sizingEffect_skips by (by left). done.
  - destruct (tabletQueries st); [done |]. injection Hstep as <-.
    destruct HI as (Hf & Hm & Hd & Hq).
    assert (numericSize (adFormatSize (tabletThen r (set_tabletQueries n st))))
      as Hn by (rewrite tabletThen_adFormatSize; by eexists _, _).
    unfold shapeInv. split_and!; [by right | done | |];
      unfold tabletThen; destruct r; by destruct st.
  - destruct (initQueries st); [done |]. injection Hstep as <-.
    apply (shapeInv_fields strict st); try done;
      unfold initThen; destruct r; by destruct st.
  - destruct (heightQueries st !! i) as [[fw w] |] eqn:Hq; [| done].
    injection Hstep as <-.
    assert (concrete w) as Hw.
    { destruct HI as (_ & _ & _ & HF).
      by apply (Forall_lookup_1 _ _ _ _ HF Hq). }
    unfold resume. apply bannerThen_shape; [done | left; apply concrete_num |].
    destruct HI as (Hf & Hm & Hd & HF). unfold shapeInv.
    replace (adFormatSize (set_heightQueries _ st)) with (adFormatSize st)
      by (by destruct st).
    replace (effectFormat (set_heightQueries _ st)) with (effectFormat st)
      by (by destruct st).
    replace (dimensions (set_heightQueries _ st)) with (dimensions st)
      by (by destruct st).
    replace (heightQueries (set_heightQueries (delete i (heightQueries st)) st))
      with (delete i (heightQueries st)) by (by destruct st).
    split_and!; try done. by apply Forall_delete.
  - destruct (heightQueries st !! i) as [[fw w] |] eqn:Hq; [| done].
    injection Hstep as <-.
    destruct HI as (Hf & Hm & Hd & HF). unfold shapeInv.
    replace (adFormatSize (set_heightQueries _ st)) with (adFormatSize st)
      by (by destruct st).
    replace (effectFormat (set_heightQueries _ st)) with (effectFormat st)
      by (by destruct st).
    replace (dimensions (set_heightQueries _ st)) with (dimensions st)
      by (by destruct st).
    replace (heightQueries (set_heightQueries (delete i (heightQueries st)) st))
      with (delete i (heightQueries st)) by (by destruct st).
    split_and!; try done. by apply Forall_delete.
  - destruct (mounted st); [| done]. injection Hstep as <-.
    apply (shapeInv_fields strict st); try done;
      unfold loadAd; destruct (adViewRef st); by destruct st.
  - destruct (mounted st); [| done]. injection Hstep as <-.
    apply (shapeInv_fields strict st); try done;
      unfold commitRef, saveElement;
      by destruct st as [? ? ? ? ? ? ? ? [e|] ? ? ? ? ? ?].
Qed.

Lemma shapeInv_mount strict : shapeInv strict mount.
Proof. unfold shapeInv. cbn. split_and!; [by left | done | by left | done]. Qed.

Lemma reachable_shape st : reachable st → shapeInv false st.
Proof.
  induction 1 as [| st ev st' _ IH Hstep]; [apply shapeInv_mount |].
  by apply (shapeInv_step false st ev st').
Qed.

Lemma sizeRecord_nonempty w h : sizeRecord w h ≠ ∅.
Proof.
  intros H. pose proof (keysLength_sizeRecord w h) as Hk.
  rewrite H in Hk. unfold keysLength in Hk. by rewrite map_size_empty in Hk.
Qed.

Lemma keysLength_pos_nonempty (d : JsObject) : 0 < keysLength d ↔ d ≠ ∅.
Proof.
  unfold keysLength. split.
  - intros Hk ->. rewrite map_size_empty in Hk. lia.
  - intros Hd. destruct (size d) eqn:E; [| lia].
    by apply map_size_empty_inv in E.
Qed.

(** X4: in every reachable state the stored dimensions are either the
    initial empty object or a record of exactly width and height whose
    width is a declared or numeric value; the height is one too, or is
    undefined; and every outstanding height query carries such a
    width. *)
Theorem stored_size_shape (st : State) :
  reachable st →
  (dimensions st = ∅
   ∨ ∃ w h, dimensions st = sizeRecord w h ∧ keysLength (dimensions st) = 2
            ∧ concrete w ∧ (concrete h ∨ h = VUndefined))
  ∧ Forall (λ q : Z * Value, concrete q.2) (heightQueries st).
Proof.
  intros Hr. destruct (reachable_shape st Hr) as (_ & _ & Hd & Hq).
  split; [| done].
  destruct Hd as [Hd | (w & h & Hd & Hw & Hh)]; [by left |].
  right. exists w, h. rewrite Hd, keysLength_sizeRecord.
  split_and!; try done. destruct Hh as [Hh | [_ Hh]]; [by left | by right].
Qed.

Lemma stored_size_shape_witness :
  let p := propsOf BANNER true (StyleObject {["width" := VStr "100%"]}) 390 in
  let st := afterEvents [Render p; InitResolved true; Render p] in
  reachable st
  ∧ dimensions st = ∅
  ∧ heightQueries st = [(390%Z, VStr "100%")]
  ∧ Forall (λ q : Z * Value, concrete q.2) (heightQueries st).
Proof.
  intros p st.
  assert (reachable st) as Hr.
  { apply (run_reachable [Render p; InitResolved true; Render p] mount);
      [constructor | vm_compute; reflexivity]. }
  destruct (stored_size_shape st Hr) as [_ Hq].
  split_and!; [exact Hr | vm_compute; reflexivity | vm_compute; reflexivity
              | exact Hq].
Defined.

Lemma get_assign_present (style : StyleProp) (d : JsObject) k v :
  d !! k = Some v → get (assign style d) k = v.
Proof.
  intros Hk. unfold get, assign.
  by rewrite (lookup_union_Some_l d (ownProperties style) k v Hk).
Qed.

Lemma get_assign_absent (style : StyleProp) (d : JsObject) k :
  d !! k = None → get (assign style d) k = get (ownProperties style) k.
Proof.
  intros Hk. unfold get, assign. by rewrite lookup_union_r.
Qed.

Lemma get_array_named (elements : list StyleProp) k :
  (∀ i : nat, k ≠ pretty i) →
  get (ownProperties (StyleArray elements)) k = VUndefined.
Proof.
  intros Hk. unfold get. cbn [ownProperties].
  rewrite not_elem_of_list_to_map_1; [done |].
  intros Hin. apply list_elem_of_fmap in Hin as ([k' e] & -> & Hin).
  apply elem_of_lookup_imap in Hin as (i & y & [= -> ->] & _).
  by apply (Hk i).
Qed.

Lemma lookup_sizeRecord_width w h : sizeRecord w h !! "width" = Some w.
Proof. unfold sizeRecord. by rewrite lookup_insert_eq. Qed.

Lemma lookup_sizeRecord_height w h : sizeRecord w h !! "height" = Some h.
Proof.
  unfold sizeRecord. rewrite lookup_insert_ne by done.
  by rewrite lookup_singleton_eq.
Qed.

Lemma lookup_sizeRecord_other w h k :
  k ≠ "width" → k ≠ "height" → sizeRecord w h !! k = None.
Proof.
  intros H1 H2. unfold sizeRecord. rewrite lookup_insert_ne by done.
  by rewrite lookup_singleton_ne.
Qed.

(** X5: in every reachable state in which the native view is rendered,
    the style handed to it takes its width and height from the stored
    dimensions, overriding what the caller's style declares, and every
    other key from the own properties of the style prop as it was
    passed: the keys of a plain style object, but for a style array only
    its indices, so that the named keys of its elements do not reach the
    view. *)
Theorem rendered_style_overrides
    (st : State) (p : Props) (v : AdViewComponentProps) :
  reachable st → render st p = Some v →
  get (view_style v) "width" = get (dimensions st) "width"
  ∧ get (view_style v) "height" = get (dimensions st) "height"
  ∧ (∀ k, k ≠ "width" → k ≠ "height" →
          get (view_style v) k = get (ownProperties (style p)) k)
  ∧ (∀ o k, style p = StyleObject o → k ≠ "width" → k ≠ "height" →
            get (view_style v) k = get o k)
  ∧ (∀ elements k,
        style p = StyleArray elements → (∀ i : nat, k ≠ pretty i) →
        k ≠ "width" → k ≠ "height" →
        get (view_style v) k = VUndefined).
Proof.
  intros Hr Hv. apply render_some in Hv as (_ & Hk & ->). cbn [view_style].
  destruct (reachable_shape st Hr) as (_ & _ & Hd & _).
  destruct Hd as [Hd | (w & h & Hd & _)].
  { apply keysLength_pos_nonempty in Hk. done. }
  rewrite Hd, get_sizeRecord_width, get_sizeRecord_height.
  assert (∀ k, k ≠ "width" → k ≠ "height" →
               get (assign (style p) (sizeRecord w h)) k
               = get (ownProperties (style p)) k) as Hother.
  { intros k H1 H2. by apply get_assign_absent, lookup_sizeRecord_other. }
  split_and!.
  - apply get_assign_present, lookup_sizeRecord_width.
  - apply get_assign_present, lookup_sizeRecord_height.
  - exact Hother.
  - intros o k Hs H1 H2. rewrite Hother by done. by rewrite Hs.
  - intros elements k Hs Hi H1 H2. rewrite Hother by done. rewrite Hs.
    by apply get_array_named.
Qed.

Lemma rendered_style_overrides_witness :
  let o : JsObject := {["width" := VNum 320; "opacity" := VNum 1]} in
  let p := propsOf MREC true (StyleObject o) 390 in
  let q := propsOf MREC true (StyleArray [StyleObject o]) 390 in
  let st := afterEvents [Render p; InitResolved true; Render p] in
  ∃ v w, render st p = Some v ∧ render st q = Some w
         ∧ get (view_style v) "width" = VNum 320
         ∧ get (view_style v) "height" = VNum 250
         ∧ get (view_style v) "opacity" = VNum 1
         ∧ get (view_style w) "opacity" = VUndefined
         ∧ get (view_style w) "0" = VElement 0.
Proof.
  intros o p q st.
  assert (reachable st) as Hr.
  { apply (run_reachable [Render p; InitResolved true; Render p] mount);
      [constructor | vm_compute; reflexivity]. }
  assert (is_Some (render st p)) as [v Hv] by (vm_compute; eauto).
  assert (is_Some (render st q)) as [w Hw] by (vm_compute; eauto).
  destruct (rendered_style_overrides st p v Hr Hv) as (Hvw & Hvh & _ & Hobj & _).
  destruct (rendered_style_overrides st q w Hr Hw) as (_ & _ & Hown & _).
  exists v, w. split_and!; [exact Hv | exact Hw | | | | |].
  - rewrite Hvw. vm_compute. reflexivity.
  - rewrite Hvh. vm_compute. reflexivity.
  - rewrite (Hobj o "opacity" eq_refl) by done. vm_compute. reflexivity.
  - rewrite (Hown "opacity") by done. vm_compute. reflexivity.
  - rewrite (Hown "0") by done. vm_compute. reflexivity.
Defined.

Lemma noPlainBanner_shape evs st :
  noPlainBanner evs → run mount evs = Some st → shapeInv true st.
Proof.
  intros Hev Hrun.
  eapply (run_invariant (shapeInv true) _ _ evs mount st
            (shapeInv_mount true) Hev Hrun).
  Unshelve.
  intros s ev s' HI Hp Hstep. apply (shapeInv_step true s ev s' HI); [| done].
  intros _. exact Hp.
Qed.

(** X6: along a mount none of whose render passes is a banner without
    adaptive sizing (only MRECs and adaptive banners), the native view is
    only ever rendered with a stored size whose width and height are both
    specified, and these are the width and height of the style it
    receives. *)
Theorem view_fully_sized_without_plain_banner
    (evs : list Event) (st : State) (p : Props) (v : AdViewComponentProps) :
  noPlainBanner evs → run mount evs = Some st → render st p = Some v →
  fullySized (dimensions st)
  ∧ concrete (get (view_style v) "width")
  ∧ concrete (get (view_style v) "height").
Proof.
  intros Hev Hrun Hv. apply render_some in Hv as (_ & Hk & ->).
  cbn [view_style].
  destruct (noPlainBanner_shape evs st Hev Hrun) as (_ & _ & Hd & _).
  destruct Hd as [Hd | (w & h & Hd & Hw & Hh)].
  { apply keysLength_pos_nonempty in Hk. done. }
  assert (concrete h) as Hh' by (by destruct Hh as [? | [? _]]).
  rewrite Hd. unfold fullySized.
  rewrite get_sizeRecord_width, get_sizeRecord_height.
  rewrite (get_assign_present _ _ _ _ (lookup_sizeRecord_width w h)).
  rewrite (get_assign_present _ _ _ _ (lookup_sizeRecord_height w h)).
  done.
Qed.

Lemma view_fully_sized_without_plain_banner_witness :
  let p := propsOf BANNER true StyleAbsent 390 in
  let evs := [Render p; InitResolved true; Render p; HeightResolved 0 61] in
  let st := afterEvents evs in
  ∃ v, render st p = Some v ∧ fullySized (dimensions st)
       ∧ resolvedPair st = (VNum 390, VNum 61).
Proof.
  intros p evs st.
  assert (run mount evs = Some st) as Hrun by (vm_compute; reflexivity).
  assert (is_Some (render st p)) as [v Hv] by (vm_compute; eauto).
  assert (noPlainBanner evs) as Hev.
  { repeat constructor; by right. }
  destruct (view_fully_sized_without_plain_banner evs st p v Hev Hrun Hv)
    as (Hf & _).
  exists v. split_and!; [exact Hv | exact Hf | vm_compute; reflexivity].
Defined.

(** ** What an event can change *)

Lemma sizeBanner_resolved_record sizeProps adaptive screenWidth bfs a :
  sizeBannerDimensions sizeProps adaptive screenWidth bfs = Resolved a →
  ∃ w h, a = sizeRecord w h.
Proof.
  unfold sizeBannerDimensions.
  destruct (strictEq (get sizeProps "height") auto);
    [destruct adaptive; [done |] |]; intros [= <-]; by eexists _, _.
Qed.

Lemma bannerThen_effect a s :
  (dimensions (bannerThen a s) = dimensions s
   ∧ updates (bannerThen a s) = updates s)
  ∨ (dimensions (bannerThen a s) = a
     ∧ updates (bannerThen a s) = S (updates s)).
Proof.
  destruct (bannerThen_cases a s) as [(_ & _ & ->) | (_ & ->)];
    [by left | right].
  unfold forceUpdate. by destruct s.
Qed.

Lemma sizingPass_effect p s :
  (dimensions (sizingPass p s) = dimensions s
   ∧ updates (sizingPass p s) = updates s)
  ∨ (∃ w h, dimensions (sizingPass p s) = sizeRecord w h)
    ∧ updates (sizingPass p s) = S (updates s).
Proof.
  unfold sizingPass. destruct (getOutlineViewSize (style p)) as [w h].
  set (s1 := set_sizeProps (sizeRecord w h) s).
  assert (dimensions s1 = dimensions s ∧ updates s1 = updates s) as [Ed Eu]
    by (subst s1; by destruct s).
  destruct (adFormat p).
  - destruct (sizeBannerDimensions _ _ _ _) as [a | fw w'] eqn:Hb.
    + apply sizeBanner_resolved_record in Hb as (w' & h' & ->).
      destruct (bannerThen_effect (sizeRecord w' h') s1) as [[-> ->] | [-> ->]].
      * left. by rewrite Ed, Eu.
      * right. rewrite Eu. split; [by eexists _, _ | done].
    + left. subst s1. by destruct s.
  - right. subst s1. unfold forceUpdate. destruct s; cbn.
    split; [by eexists _, _ | done].
Qed.

Lemma step_effect st ev st' :
  step st ev = Some st' →
  (dimensions st' = dimensions st ∧ updates st' = updates st)
  ∨ (sizingEvent ev ∧ (∃ w h, dimensions st' = sizeRecord w h)
     ∧ updates st' = S (updates st)).
Proof.
  intros Hstep. destruct ev as [p | r | r | i h | i | |]; cbn [step] in Hstep.
  - apply step_render in Hstep as [_ ->].
    destruct (beforeSizing_frame p st) as (Hu & Hi & _ & Hd & _).
    rewrite <- Hu, <- Hd.
    destruct (isInitialized (beforeSizing p st)) eqn:E;
      [destruct (declaredSizeChanged p (beforeSizing p st)) eqn:Hc |].
    + rewrite sizingEffect_runs by done.
      destruct (sizingPass_effect p (beforeSizing p st)) as [H | [H1 H2]];
        [by left | by right].
    + rewrite sizingEffect_skips by (by right). by left.
    + rewrite sizingEffect_skips by (by left). by left.
  - destruct (tabletQueries st); [done |]. injection Hstep as <-.
    left. unfold tabletThen. destruct r; by destruct st.
  - destruct (initQueries st); [done |]. injection Hstep as <-.
    left. unfold initThen. destruct r; by destruct st.
  - destruct (heightQueries st !! i) as [[fw w] |]; [| done].
    injection Hstep as <-.
    set (s := set_heightQueries (delete i (heightQueries st)) st).
    assert (dimensions s = dimensions st ∧ updates s = updates st) as [Ed Eu]
      by (subst s; by destruct st).
    rewrite <- Ed, <- Eu.
    destruct (bannerThen_effect (resume w (VNum h)) s) as [H | [H1 H2]];
      [by left | right].
    split_and!; [done | by eexists _, _ | done].
  - destruct (heightQueries st !! i) as [[fw w] |]; [| done].
    injection Hstep as <-. left. by destruct st.
  - destruct (mounted st); [| done]. injection Hstep as <-.
    left. unfold loadAd. destruct (adViewRef st); by destruct st.
  - destruct (mounted st); [| done]. injection Hstep as <-.
    left. unfold commitRef, saveElement.
    by destruct st as [? ? ? ? ? ? ? ? [e|] ? ? ? ? ? ?].
Qed.

(** X7: whatever happens, an event either leaves the stored dimensions
    and the count of [forceUpdate] dispatches as they were, or it stores a
    width and height record and dispatches exactly one [forceUpdate];
    only a render pass and the answer of a height query can do the
    latter, so tablet and initialization answers, rejected height
    queries, [loadAd] and the unmount never re-size the ad. *)
Theorem event_stores_and_notifies_together
    (st st' : State) (ev : Event) :
  step st ev = Some st' →
  (dimensions st' = dimensions st ∧ updates st' = updates st)
  ∨ (sizingEvent ev ∧ (∃ w h, dimensions st' = sizeRecord w h)
     ∧ updates st' = S (updates st)).
Proof. apply step_effect. Qed.

Lemma event_stores_and_notifies_together_witness :
  let p := propsOf BANNER true StyleAbsent 390 in
  let st := afterEvents [Render p; InitResolved true; Render p] in
  let st' := afterEvents [Render p; InitResolved true; Render p;
                          HeightRejected 0] in
  step st (HeightRejected 0) = Some st'
  ∧ dimensions st' = ∅ ∧ updates st' = 0 ∧ heightQueries st' = [].
Proof.
  intros p st st'.
  assert (step st (HeightRejected 0) = Some st') as Hstep
    by (vm_compute; reflexivity).
  destruct (event_stores_and_notifies_together st st' _ Hstep)
    as [[Hd Hu] | (Hev & _)]; [| done].
  split_and!; [exact Hstep | by rewrite Hd | by rewrite Hu
              | vm_compute; reflexivity].
Defined.

Lemma run_keeps_sized evs st st' :
  run st evs = Some st' → dimensions st ≠ ∅ → dimensions st' ≠ ∅.
Proof.
  revert st. induction evs as [| ev evs IH]; intros st Hrun Hd; cbn in Hrun.
  - by injection Hrun as <-.
  - destruct (step st ev) as [s1 |] eqn:Hstep; [| done].
    apply (IH s1 Hrun).
    destruct (step_effect st ev s1 Hstep) as [[-> _] | (_ & (w & h & ->) & _)];
      [done | apply sizeRecord_nonempty].
Qed.

(** X8: a component that has been sized once is never unsized: from any
    state with stored dimensions, after any events the dimensions are
    still stored, and the native view is rendered exactly when the
    initialization flag is true. *)
Theorem once_sized_stays_sized
    (st st' : State) (evs : list Event) (p : Props) :
  run st evs = Some st' → 0 < keysLength (dimensions st) →
  0 < keysLength (dimensions st')
  ∧ (is_Some (render st' p) ↔ isInitialized st' = true).
Proof.
  intros Hrun Hk. apply keysLength_pos_nonempty in Hk.
  pose proof (run_keeps_sized evs st st' Hrun Hk) as Hd.
  apply keysLength_pos_nonempty in Hd. split; [done |].
  split.
  - intros [v Hv]. by apply render_some in Hv as (Hi & _).
  - intros Hi. unfold render. rewrite Hi. cbn [negb].
    apply Nat.ltb_lt in Hd. rewrite Hd. by eexists.
Qed.

Lemma once_sized_stays_sized_witness :
  let p := propsOf MREC true StyleAbsent 390 in
  let q := propsOf BANNER false StyleAbsent 390 in
  let st := afterEvents [Render p; InitResolved true; Render p] in
  let evs := [Render q; InitResolved false; Render q] in
  let st' := afterEvents [Render p; InitResolved true; Render p;
                          Render q; InitResolved false; Render q] in
  run st evs = Some st'
  ∧ 0 < keysLength (dimensions st')
  ∧ render st' q = None.
Proof.
  intros p q st evs st'.
  assert (run st evs = Some st') as Hrun by (vm_compute; reflexivity).
  destruct (once_sized_stays_sized st st' evs q Hrun) as [Hk _];
    [vm_compute; lia |].
  split_and!; [exact Hrun | exact Hk | vm_compute; reflexivity].
Defined.

(** X9: the format size that a tablet answer brings is not applied to a
    size resolved before it: when the answer is followed by a render pass
    whose declared size is the one of the prior pass, the stored
    dimensions stay as they were and nobody is notified.  A banner sized
    before the tablet answer keeps its size until the style changes. *)
Theorem tablet_answer_never_resizes
    (st st1 st2 : State) (result : bool) (p : Props) :
  step st (TabletResolved result) = Some st1 →
  declaredSizeChanged p st = false →
  step st1 (Render p) = Some st2 →
  dimensions st2 = dimensions st ∧ updates st2 = updates st
  ∧ heightQueries st2 = heightQueries st.
Proof.
  intros Ht Hc Hr.
  assert (dimensions st1 = dimensions st ∧ updates st1 = updates st
          ∧ heightQueries st1 = heightQueries st
          ∧ sizeProps st1 = sizeProps st) as (Ed & Eu & Eq & Es).
  { cbn [step] in Ht. destruct (tabletQueries st); [done |].
    injection Ht as <-. unfold tabletThen. destruct result; by destruct st. }
  assert (declaredSizeChanged p st1 = false) as Hc1
    by (unfold declaredSizeChanged in *; by rewrite Es).
  rewrite (render_step_skips _ _ _ Hr (or_intror Hc1)).
  destruct (beforeSizing_frame p st1) as (-> & _ & _ & -> & -> & _).
  done.
Qed.

Lemma tablet_answer_never_resizes_witness :
  let p := propsOf BANNER false StyleAbsent 390 in
  let st := afterEvents [Render p; InitResolved true; Render p] in
  let st1 := afterEvents [Render p; InitResolved true; Render p;
                          TabletResolved false] in
  let st2 := afterEvents [Render p; InitResolved true; Render p;
                          TabletResolved false; Render p] in
  step st (TabletResolved false) = Some st1
  ∧ step st1 (Render p) = Some st2
  ∧ get (adFormatSize st2) "height" = VNum 50
  ∧ get (dimensions st2) "height" = VUndefined.
Proof.
  intros p st st1 st2.
  assert (step st (TabletResolved false) = Some st1) as H1
    by (vm_compute; reflexivity).
  assert (step st1 (Render p) = Some st2) as H2 by (vm_compute; reflexivity).
  destruct (tablet_answer_never_resizes st st1 st2 false p H1 eq_refl H2)
    as (Hd & _).
  split_and!; [exact H1 | exact H2 | vm_compute; reflexivity |].
  rewrite Hd. vm_compute. reflexivity.
Defined.

(** ** Before the initialization *)

Lemma unsized_step st ev st' :
  ev ≠ InitResolved true →
  isInitialized st = false ∧ dimensions st = ∅ ∧ sizeProps st = ∅
  ∧ updates st = 0 ∧ heightQueries st = [] →
  step st ev = Some st' →
  isInitialized st' = false ∧ dimensions st' = ∅ ∧ sizeProps st' = ∅
  ∧ updates st' = 0 ∧ heightQueries st' = [].
Proof.
  intros Hev (Hi & Hd & Hs & Hu & Hq) Hstep.
  destruct ev as [p | r | r | i h | i | |]; cbn [step] in Hstep.
  - rewrite (render_step_skips _ _ _ Hstep (or_introl Hi)).
    by destruct (beforeSizing_frame p st) as (-> & -> & -> & -> & -> & _).
  - destruct (tabletQueries st); [done |]. injection Hstep as <-.
    unfold tabletThen. destruct r; by destruct st.
  - destruct (initQueries st); [done |]. injection Hstep as <-.
    destruct r; [done |]. unfold initThen. by destruct st.
  - by rewrite Hq in Hstep.
  - by rewrite Hq in Hstep.
  - destruct (mounted st); [| done]. injection Hstep as <-.
    unfold loadAd. destruct (adViewRef st); by destruct st.
  - destruct (mounted st); [| done]. injection Hstep as <-.
    unfold commitRef, saveElement.
    by destruct st as [? ? ? ? ? ? ? ? [e|] ? ? ? ? ? ?].
Qed.

(** X10: as long as no initialization query has been answered true,
    nothing is sized: the stored dimensions and the remembered declared
    size are the initial empty objects, no height query was issued, no
    [forceUpdate] dispatched, and every render returns [null]. *)
Theorem nothing_sized_before_initialization
    (evs : list Event) (st : State) (p : Props) :
  neverInitialized evs → run mount evs = Some st →
  isInitialized st = false ∧ dimensions st = ∅ ∧ sizeProps st = ∅
  ∧ updates st = 0 ∧ heightQueries st = []
  ∧ render st p = None.
Proof.
  intros Hev Hrun.
  assert (isInitialized st = false ∧ dimensions st = ∅ ∧ sizeProps st = ∅
          ∧ updates st = 0 ∧ heightQueries st = []) as HI.
  { apply (run_invariant _ _
             (λ s ev s' HI Hp Hs, unsized_step s ev s' Hp HI Hs)
             evs mount st); done. }
  destruct HI as (Hi & Hd & Hs & Hu & Hq). split_and!; try done.
  apply render_none. by left.
Qed.

Lemma nothing_sized_before_initialization_witness :
  let p := propsOf BANNER true (StyleObject (sizeRecord (VNum 320) (VNum 50))) 390 in
  let evs := [Render p; TabletResolved true; InitResolved false; Render p;
              LoadAd] in
  let st := afterEvents evs in
  run mount evs = Some st ∧ dimensions st = ∅ ∧ render st p = None
  ∧ warnings st = 1.
Proof.
  intros p evs st.
  assert (run mount evs = Some st) as Hrun by (vm_compute; reflexivity).
  assert (neverInitialized evs) as Hev by (repeat constructor; done).
  destruct (nothing_sized_before_initialization evs st p Hev Hrun)
    as (_ & Hd & _ & _ & _ & Hr).
  split_and!; [exact Hrun | exact Hd | exact Hr | vm_compute; reflexivity].
Defined.

(** ** The saved reference *)

Lemma sizingEffect_book_frame p st :
  created (sizingEffect p st) = created st
  ∧ warnings (sizingEffect p st) = warnings st
  ∧ mounted (sizingEffect p st) = mounted st.
Proof.
  unfold sizingEffect.
  destruct (isInitialized st); cbn [negb]; [| done].
  destruct (getOutlineViewSize (style p)) as [w h].
  destruct (_ && _); [done |].
  destruct (adFormat p).
  - destruct (sizeBannerDimensions _ _ _ _) as [a | fw w'].
    + unfold bannerThen, forceUpdate. destruct (_ || _); by destruct st.
    + by destruct st.
  - unfold forceUpdate. by destruct st.
Qed.

Lemma runFormatEffect_book_frame p st :
  created (runFormatEffect p st) = created st
  ∧ warnings (runFormatEffect p st) = warnings st
  ∧ mounted (runFormatEffect p st) = mounted st.
Proof.
  unfold runFormatEffect, formatEffect.
  case_bool_decide; [done |]. destruct (adFormat p); by destruct st.
Qed.

Lemma commitRef_refInv out st : refInv st → refInv (commitRef out st).
Proof.
  intros [Hv Hr]. unfold commitRef, saveElement, refInv.
  destruct out, st as [? ? r ? ? ? ? ? [e|] c ? ? ? ? ?]; cbn in *;
    try done.
  split; [by intros e [= <-] | intros e [= <-]; lia].
Qed.

Lemma refInv_step st ev st' :
  refInv st → step st ev = Some st' → refInv st'.
Proof.
  intros HI Hstep.
  destruct ev as [p | r | r | i h | i | |]; cbn [step] in Hstep.
  - apply step_render in Hstep as [_ ->]. unfold refInv.
    destruct (sizingEffect_ref_frame p (beforeSizing p st)) as (-> & -> & _).
    destruct (sizingEffect_book_frame p (beforeSizing p st)) as (-> & _).
    unfold beforeSizing.
    destruct (runFormatEffect_ref_frame p (commitRef (render st p) st))
      as (-> & -> & _).
    destruct (runFormatEffect_book_frame p (commitRef (render st p) st))
      as (-> & _).
    by apply commitRef_refInv.
  - destruct (tabletQueries st); [done |]. injection Hstep as <-.
    unfold tabletThen. destruct r; by destruct st.
  - destruct (initQueries st); [done |]. injection Hstep as <-.
    unfold initThen. destruct r; by destruct st.
  - destruct (heightQueries st !! i) as [[fw w] |]; [| done].
    injection Hstep as <-. unfold bannerThen, forceUpdate.
    destruct (_ || _); by destruct st.
  - destruct (heightQueries st !! i) as [[fw w] |]; [| done].
    injection Hstep as <-. by destruct st.
  - destruct (mounted st); [| done]. injection Hstep as <-.
    unfold loadAd. destruct (adViewRef st) eqn:E; by destruct st.
  - destruct (mounted st); [| done]. injection Hstep as <-.
    apply (commitRef_refInv None). by destruct st.
Qed.

Lemma reachable_refInv st : reachable st → refInv st.
Proof.
  induction 1 as [| st ev st' _ IH Hstep]; [| by eapply refInv_step].
  split; [done |]. intros e. done.
Qed.

(** X11: in every reachable state in which the native view is in the
    tree, the saved reference is that view, and [loadAd] dispatches
    exactly one command, to that view, and changes nothing else of what
    the sizing reads. *)
Theorem loadAd_dispatches_to_view (st : State) (e : Element) :
  reachable st → view st = Some e →
  adViewRef st = Some e
  ∧ commands (loadAd st) = (commands st ++ [e])%list
  ∧ sizingView (loadAd st) = sizingView st
  ∧ isInitialized (loadAd st) = isInitialized st.
Proof.
  intros Hr Hv. destruct (reachable_refInv st Hr) as [HI _].
  specialize (HI e Hv). unfold loadAd. rewrite HI.
  split; [done |]. by destruct st.
Qed.

Lemma loadAd_dispatches_to_view_witness :
  let p := propsOf MREC true StyleAbsent 390 in
  let st := afterEvents [Render p; InitResolved true; Render p; Render p;
                         LoadAd] in
  reachable st ∧ view st = Some 0
  ∧ commands (loadAd st) = [0; 0].
Proof.
  intros p st.
  assert (reachable st) as Hr.
  { apply (run_reachable [Render p; InitResolved true; Render p; Render p;
                          LoadAd] mount);
      [constructor | vm_compute; reflexivity]. }
  assert (view st = Some 0) as Hv by (vm_compute; reflexivity).
  destruct (loadAd_dispatches_to_view st 0 Hr Hv) as (_ & Hc & _).
  split_and!; [exact Hr | exact Hv |].
  rewrite Hc. vm_compute. reflexivity.
Defined.

Lemma step_keeps_ref st ev st' :
  step st ev = Some st' → is_Some (adViewRef st) → is_Some (adViewRef st').
Proof.
  intros Hstep Hr.
  destruct ev as [p | r | r | i h | i | |]; cbn [step] in Hstep.
  - apply step_render in Hstep as [_ ->].
    destruct (sizingEffect_ref_frame p (beforeSizing p st)) as (-> & _).
    unfold beforeSizing.
    destruct (runFormatEffect_ref_frame p (commitRef (render st p) st))
      as (-> & _).
    unfold commitRef, saveElement.
    destruct (render st p), st as [? ? ? ? ? ? ? ? [e|] ? ? ? ? ? ?];
      cbn in *; done.
  - destruct (tabletQueries st); [done |]. injection Hstep as <-.
    unfold tabletThen. destruct r; by destruct st.
  - destruct (initQueries st); [done |]. injection Hstep as <-.
    unfold initThen. destruct r; by destruct st.
  - destruct (heightQueries st !! i) as [[fw w] |]; [| done].
    injection Hstep as <-. unfold bannerThen, forceUpdate.
    destruct (_ || _); by destruct st.
  - destruct (heightQueries st !! i) as [[fw w] |]; [| done].
    injection Hstep as <-. by destruct st.
  - destruct (mounted st); [| done]. injection Hstep as <-.
    unfold loadAd. destruct (adViewRef st) eqn:E; by destruct st.
  - destruct (mounted st); [| done]. injection Hstep as <-.
    unfold commitRef, saveElement.
    by destruct st as [? ? ? ? ? ? ? ? [e|] ? ? ? ? ? ?].
Qed.

(** X12: the saved reference is never cleared: [saveElement] ignores
    the [null] React passes when the native view leaves the tree, so once
    a view was saved, after any events [loadAd] still dispatches a
    command to a saved element, also when no view is rendered any
    more. *)
Theorem saved_reference_never_cleared
    (st st' : State) (evs : list Event) :
  run st evs = Some st' → is_Some (adViewRef st) →
  ∃ e, adViewRef st' = Some e
       ∧ commands (loadAd st') = (commands st' ++ [e])%list.
Proof.
  intros Hrun Hr.
  assert (is_Some (adViewRef st')) as [e He].
  { revert st Hrun Hr. induction evs as [| ev evs IH]; intros st Hrun Hr;
      cbn in Hrun.
    - by injection Hrun as <-.
    - destruct (step st ev) as [s1 |] eqn:Hstep; [| done].
      apply (IH s1 Hrun). by apply (step_keeps_ref st ev s1). }
  exists e. split; [done |]. unfold loadAd. rewrite He. by destruct st'.
Qed.

Lemma saved_reference_never_cleared_witness :
  let p := propsOf MREC true StyleAbsent 390 in
  let q := propsOf BANNER true StyleAbsent 390 in
  let st := afterEvents [Render p; InitResolved true; Render p; Render p] in
  let evs := [Render q; InitResolved false; Render q] in
  let st' := afterEvents [Render p; InitResolved true; Render p; Render p;
                          Render q; InitResolved false; Render q] in
  run st evs = Some st'
  ∧ view st' = None ∧ render st' q = None
  ∧ commands (loadAd st') = [0].
Proof.
  intros p q st evs st'.
  assert (run st evs = Some st') as Hrun by (vm_compute; reflexivity).
  destruct (saved_reference_never_cleared st st' evs Hrun)
    as (e & He & Hc); [vm_compute; eauto |].
  split_and!; [exact Hrun | vm_compute; reflexivity | vm_compute; reflexivity |].
  vm_compute. reflexivity.
Defined.

(** ** Queries and warnings *)

Lemma commitRef_book_frame out st :
  warnings (commitRef out st) = warnings st.
Proof.
  unfold commitRef, saveElement.
  by destruct out, st as [? ? ? ? ? ? ? ? [e|] ? ? ? ? ? ?].
Qed.

Lemma step_warnings st ev st' :
  step st ev = Some st' →
  warnings st' = warnings st + refusals [ev].
Proof.
  intros Hstep.
  destruct ev as [p | r | r | i h | i | |]; cbn [step] in Hstep; cbn.
  - apply step_render in Hstep as [_ ->].
    destruct (sizingEffect_book_frame p (beforeSizing p st)) as (_ & -> & _).
    unfold beforeSizing.
    destruct (runFormatEffect_book_frame p (commitRef (render st p) st))
      as (_ & -> & _).
    rewrite commitRef_book_frame. lia.
  - destruct (tabletQueries st); [done |]. injection Hstep as <-.
    unfold tabletThen. destruct r; destruct st; cbn; lia.
  - destruct (initQueries st); [done |]. injection Hstep as <-.
    unfold initThen. destruct r; destruct st; cbn; lia.
  - destruct (heightQueries st !! i) as [[fw w] |]; [| done].
    injection Hstep as <-. unfold bannerThen, forceUpdate.
    destruct (_ || _); destruct st; cbn; lia.
  - destruct (heightQueries st !! i) as [[fw w] |]; [| done].
    injection Hstep as <-. destruct st; cbn; lia.
  - destruct (mounted st); [| done]. injection Hstep as <-.
    unfold loadAd. destruct (adViewRef st); destruct st; cbn; lia.
  - destruct (mounted st); [| done]. injection Hstep as <-.
    unfold commitRef, saveElement.
    destruct st as [? ? ? ? ? ? ? ? [e|] ? ? ? ? ? ?]; cbn; lia.
Qed.

Lemma refusals_cons ev evs : refusals (ev :: evs) = refusals [ev] + refusals evs.
Proof. destruct ev as [| | [] | | | |]; cbn; lia. Qed.

(** X13: the component logs exactly one warning for each initialization
    query that is answered false, and none for any other event. *)
Theorem one_warning_per_refusal (st st' : State) (evs : list Event) :
  run st evs = Some st' → warnings st' = warnings st + refusals evs.
Proof.
  revert st. induction evs as [| ev evs IH]; intros st Hrun; cbn in Hrun.
  - injection Hrun as <-. cbn. lia.
  - destruct (step st ev) as [s1 |] eqn:Hstep; [| done].
    rewrite (IH s1 Hrun), (step_warnings st ev s1 Hstep), (refusals_cons ev evs).
    lia.
Qed.

Lemma one_warning_per_refusal_witness :
  let p := propsOf MREC true StyleAbsent 390 in
  let q := propsOf BANNER true StyleAbsent 390 in
  let evs := [Render p; InitResolved false; Render q; TabletResolved true;
              InitResolved false; Render p; InitResolved true] in
  run mount evs = Some (afterEvents evs) ∧ warnings (afterEvents evs) = 2.
Proof.
  intros p q evs.
  assert (run mount evs = Some (afterEvents evs)) as Hrun
    by (vm_compute; reflexivity).
  split; [exact Hrun |].
  by rewrite (one_warning_per_refusal mount (afterEvents evs) evs Hrun).
Defined.

Lemma step_queries st ev st' :
  step st ev = Some st' →
  effectFormat st'
  = match ev with Render p => Some (adFormat p) | _ => effectFormat st end
  ∧ initQueries st' + initAnswers [ev]
    = initQueries st + formatRuns (effectFormat st) [ev]
  ∧ tabletQueries st' + tabletAnswers [ev]
    = tabletQueries st + bannerRuns (effectFormat st) [ev].
Proof.
  intros Hstep.
  destruct ev as [p | r | r | i h | i | |]; cbn [step] in Hstep; cbn.
  - apply step_render in Hstep as [_ ->].
    destruct (sizingEffect_format_frame p (beforeSizing p st))
      as (_ & _ & -> & -> & ->).
    unfold beforeSizing, runFormatEffect, formatEffect.
    destruct (commitRef_format_frame (render st p) st)
      as (_ & _ & He & Ht & Hq).
    rewrite He.
    case_bool_decide as Hd.
    + rewrite Ht, Hq, He. split_and!; [done | lia | lia].
    + destruct (adFormat p); destruct (commitRef (render st p) st);
        cbn in *; subst; split_and!; try done; lia.
  - destruct (tabletQueries st) eqn:E; [done |]. injection Hstep as <-.
    unfold tabletThen. destruct r; destruct st; cbn in *; subst;
      split_and!; try done; lia.
  - destruct (initQueries st) eqn:E; [done |]. injection Hstep as <-.
    unfold initThen. destruct r; destruct st; cbn in *; subst;
      split_and!; try done; lia.
  - destruct (heightQueries st !! i) as [[fw w] |]; [| done].
    injection Hstep as <-. unfold bannerThen, forceUpdate.
    destruct (_ || _); destruct st; cbn; split_and!; try done; lia.
  - destruct (heightQueries st !! i) as [[fw w] |]; [| done].
    injection Hstep as <-. destruct st; cbn; split_and!; try done; lia.
  - destruct (mounted st); [| done]. injection Hstep as <-.
    unfold loadAd. destruct (adViewRef st); destruct st; cbn;
      split_and!; try done; lia.
  - destruct (mounted st); [| done]. injection Hstep as <-.
    unfold commitRef, saveElement.
    destruct st as [? ? ? ? ? ? ? ? [e|] ? ? ? ? ? ?]; cbn;
      split_and!; try done; lia.
Qed.

Lemma run_queries evs st st' :
  run st evs = Some st' →
  initQueries st' + initAnswers evs
  = initQueries st + formatRuns (effectFormat st) evs
  ∧ tabletQueries st' + tabletAnswers evs
    = tabletQueries st + bannerRuns (effectFormat st) evs.
Proof.
  revert st. induction evs as [| ev evs IH]; intros st Hrun; cbn in Hrun.
  - injection Hrun as <-. cbn. lia.
  - destruct (step st ev) as [s1 |] eqn:Hstep; [| done].
    destruct (IH s1 Hrun) as [Hi Ht].
    destruct (step_queries st ev s1 Hstep) as (He & Hi1 & Ht1).
    rewrite He in Hi, Ht.
    destruct ev as [p | r | r | i h | i | |]; cbn in *; lia.
Qed.

Lemma formatRuns_same fmt evs :
  rendersOnly fmt evs →
  formatRuns (Some fmt) evs = 0 ∧ bannerRuns (Some fmt) evs = 0.
Proof.
  induction 1 as [| ev evs Hev _ IH]; [done |].
  destruct ev as [p | | | | | |]; cbn; try done.
  rewrite Hev. by rewrite bool_decide_eq_true_2.
Qed.

Lemma formatRuns_first fmt evs :
  rendersOnly fmt evs →
  (formatRuns None evs ≤ 1)%nat
  ∧ (bannerRuns None evs ≤ match fmt with BANNER => 1 | MREC => 0 end)%nat.
Proof.
  induction 1 as [| ev evs Hev Hevs IH]; [cbn; destruct fmt; lia |].
  destruct ev as [p | | | | | |]; cbn; try done.
  rewrite Hev. destruct (formatRuns_same fmt evs Hevs) as [-> ->].
  rewrite bool_decide_eq_false_2 by done. destruct fmt; lia.
Qed.

(** X14: no native query is lost or repeated: along every trace of a
    mount, the initialization queries outstanding and answered add up to
    the number of render passes that changed the format (the first pass
    counts), and the tablet queries outstanding and answered to the
    number of those that changed it to BANNER.  With one format all
    along, at most one initialization query is ever issued, at most one
    tablet query for a banner and none for an MREC. *)
Theorem queries_issued_per_format_change
    (evs : list Event) (st : State) :
  run mount evs = Some st →
  initQueries st + initAnswers evs = formatRuns None evs
  ∧ tabletQueries st + tabletAnswers evs = bannerRuns None evs
  ∧ ∀ fmt, rendersOnly fmt evs →
           (initQueries st + initAnswers evs ≤ 1)%nat
           ∧ (tabletQueries st + tabletAnswers evs
              ≤ match fmt with BANNER => 1 | MREC => 0 end)%nat.
Proof.
  intros Hrun. destruct (run_queries evs mount st Hrun) as [Hi Ht].
  cbn in Hi, Ht. split_and!; [done | done |].
  intros fmt Hf. destruct (formatRuns_first fmt evs Hf) as [H1 H2]. lia.
Qed.

Lemma queries_issued_per_format_change_witness :
  let p := propsOf BANNER true StyleAbsent 390 in
  let evs := [Render p; InitResolved true; Render p; Render p;
              HeightResolved 0 61; Render p] in
  let st := afterEvents evs in
  run mount evs = Some st
  ∧ initQueries st = 0 ∧ tabletQueries st = 1.
Proof.
  intros p evs st.
  assert (run mount evs = Some st) as Hrun by (vm_compute; reflexivity).
  destruct (queries_issued_per_format_change evs st Hrun) as (Hi & Ht & _).
  change (initAnswers evs) with 1 in Hi.
  change (formatRuns None evs) with 1 in Hi.
  change (tabletAnswers evs) with 0 in Ht.
  change (bannerRuns None evs) with 1 in Ht.
  split_and!; [exact Hrun | lia | lia].
Defined.

(** ** Height queries *)

Lemma sizingPass_no_query p s :
  adFormat p = MREC ∨ adaptiveBannerEnabled p = false →
  heightQueries (sizingPass p s) = heightQueries s.
Proof.
  intros Hp. unfold sizingPass.
  destruct (getOutlineViewSize (style p)) as [w h].
  destruct (adFormat p) eqn:Hf.
  - destruct Hp as [Hp | Ha]; [done |]. rewrite Ha.
    unfold sizeBannerDimensions.
    destruct (strictEq (get _ "height") auto);
      rewrite bannerThen_heightQueries; by destruct s.
  - unfold forceUpdate. by destruct s.
Qed.

Lemma no_query_step st ev st' :
  match ev with
  | Render p => adFormat p = MREC ∨ adaptiveBannerEnabled p = false
  | _ => True
  end →
  heightQueries st = [] → step st ev = Some st' → heightQueries st' = [].
Proof.
  intros Hev Hq Hstep.
  destruct ev as [p | r | r | i h | i | |]; cbn [step] in Hstep.
  - apply step_render in Hstep as [_ ->].
    destruct (beforeSizing_frame p st) as (_ & _ & _ & _ & Hb & _).
    destruct (isInitialized (beforeSizing p st)) eqn:Hi;
      [destruct (declaredSizeChanged p (beforeSizing p st)) eqn:Hc |].
    + rewrite sizingEffect_runs by done.
      rewrite sizingPass_no_query by done. by rewrite Hb.
    + rewrite sizingEffect_skips by (by right). by rewrite Hb.
    + rewrite sizingEffect_skips by (by left). by rewrite Hb.
  - destruct (tabletQueries st); [done |]. injection Hstep as <-.
    unfold tabletThen. destruct r; by destruct st.
  - destruct (initQueries st); [done |]. injection Hstep as <-.
    unfold initThen. destruct r; by destruct st.
  - by rewrite Hq in Hstep.
  - by rewrite Hq in Hstep.
  - destruct (mounted st); [| done]. injection Hstep as <-.
    unfold loadAd. destruct (adViewRef st); by destruct st.
  - destruct (mounted st); [| done]. injection Hstep as <-.
    unfold commitRef, saveElement.
    by destruct st as [? ? ? ? ? ? ? ? [e|] ? ? ? ? ? ?].
Qed.

(** X15: the native height query is only ever asked for an adaptive
    banner: along a mount none of whose render passes is a banner with
    the adaptive flag set, no height query is outstanding in any state,
    so every size is resolved within the render pass itself. *)
Theorem height_query_only_for_adaptive_banner
    (evs : list Event) (st : State) :
  noAdaptiveBanner evs → run mount evs = Some st →
  heightQueries st = []
  ∧ ∀ i h, step st (HeightResolved i h) = None.
Proof.
  intros Hev Hrun.
  assert (heightQueries st = []) as Hq.
  { apply (run_invariant (λ s, heightQueries s = []) _
             (λ s ev s' HI Hp Hs, no_query_step s ev s' Hp HI Hs)
             evs mount st); done. }
  split; [done |]. intros i h. cbn [step]. by rewrite Hq.
Qed.

Lemma height_query_only_for_adaptive_banner_witness :
  let p := propsOf BANNER false StyleAbsent 390 in
  let q := propsOf MREC true (StyleObject {["height" := VNum 100]}) 390 in
  let evs := [Render p; TabletResolved true; InitResolved true; Render p;
              Render q] in
  let st := afterEvents evs in
  run mount evs = Some st ∧ heightQueries st = []
  ∧ resolvedPair st = (VNum 300, VNum 100).
Proof.
  intros p q evs st.
  assert (run mount evs = Some st) as Hrun by (vm_compute; reflexivity).
  assert (noAdaptiveBanner evs) as Hev.
  { repeat constructor; by right. }
  destruct (height_query_only_for_adaptive_banner evs st Hev Hrun) as [Hq _].
  split_and!; [exact Hrun | exact Hq | vm_compute; reflexivity].
Defined.

(** X16: an adaptive banner without a declared height is sized in two
    steps.  The render pass stores nothing and notifies nobody; it only
    queues one height query, for the screen width.  The answer to that
    query then stores the width computed at the pass (the screen width
    when none was declared) with the answered height. *)
Theorem adaptive_banner_two_steps
    (st st1 : State) (p : Props) (h : Z) :
  adFormat p = BANNER → adaptiveBannerEnabled p = true →
  (getOutlineViewSize (style p)).2 = auto →
  isInitialized st = true → declaredSizeChanged p st = true →
  step st (Render p) = Some st1 →
  let width :=
    if strictEq (getOutlineViewSize (style p)).1 auto
    then VNum (screenWidth p) else (getOutlineViewSize (style p)).1 in
  heightQueries st1 = (heightQueries st ++ [(screenWidth p, width)])%list
  ∧ dimensions st1 = dimensions st ∧ updates st1 = updates st
  ∧ ∃ st2,
      step st1 (HeightResolved (length (heightQueries st)) h) = Some st2
      ∧ resolvedPair st2 = (width, VNum h)
      ∧ heightQueries st2 = heightQueries st.
Proof.
  intros Hp Ha Hh Hi Hc Hstep width.
  rewrite (render_step_runs _ _ _ Hstep Hi Hc).
  destruct (beforeSizing_frame p st) as (Hu & _ & _ & Hd & Hq & _).
  assert (sizingPass p (beforeSizing p st)
          = set_heightQueries
              (heightQueries (beforeSizing p st) ++ [(screenWidth p, width)])%list
              (set_sizeProps
                 (sizeRecord (getOutlineViewSize (style p)).1 auto)
                 (beforeSizing p st))) as ->.
  { unfold sizingPass. subst width.
    destruct (getOutlineViewSize (style p)) as [w h']. cbn [fst snd] in *.
    subst h'. rewrite Hp, Ha.
    replace (sizeProps (set_sizeProps (sizeRecord w auto) (beforeSizing p st)))
      with (sizeRecord w auto) by (by destruct (beforeSizing p st)).
    unfold sizeBannerDimensions.
    rewrite get_sizeRecord_width, get_sizeRecord_height, strictEq_auto_refl.
    by destruct (beforeSizing p st). }
  set (s1 := set_heightQueries _ _).
  assert (heightQueries s1
          = (heightQueries st ++ [(screenWidth p, width)])%list
          ∧ dimensions s1 = dimensions st ∧ updates s1 = updates st)
    as (Eq & Ed & Eu).
  { subst s1. rewrite <- Hq, <- Hd, <- Hu. by destruct (beforeSizing p st). }
  split_and!; [done | done | done |].
  assert (heightQueries s1 !! length (heightQueries st)
          = Some (screenWidth p, width)) as Hl.
  { rewrite Eq. by rewrite list_lookup_middle. }
  eexists. split; [exact (step_height _ _ _ _ h Hl) |].
  split.
  - unfold resolvedPair.
    match goal with
    | |- context [bannerThen ?a ?s] => destruct (bannerThen_size a s) as [-> ->]
    end.
    unfold resume. by rewrite get_sizeRecord_width, get_sizeRecord_height.
  - rewrite bannerThen_heightQueries.
    replace (heightQueries (set_heightQueries
                              (delete (length (heightQueries st))
                                 (heightQueries s1)) s1))
      with (delete (length (heightQueries st)) (heightQueries s1))
      by (by destruct s1).
    rewrite Eq, delete_middle. by rewrite app_nil_r.
Qed.

Lemma adaptive_banner_two_steps_witness :
  let p := propsOf BANNER true (StyleObject {["width" := VStr "100%"]}) 390 in
  let st := afterEvents [Render p; InitResolved true] in
  let st1 := afterEvents [Render p; InitResolved true; Render p] in
  step st (Render p) = Some st1
  ∧ heightQueries st1 = [(390%Z, VStr "100%")]
  ∧ ∃ st2, step st1 (HeightResolved 0 61) = Some st2
           ∧ resolvedPair st2 = (VStr "100%", VNum 61).
Proof.
  intros p st st1.
  assert (step st (Render p) = Some st1) as Hstep by (vm_compute; reflexivity).
  destruct (adaptive_banner_two_steps st st1 p 61 eq_refl eq_refl eq_refl
              eq_refl eq_refl Hstep) as (Hq & _ & _ & st2 & H2 & Hp & _).
  split_and!; [exact Hstep | exact Hq |].
  exists st2. split; [exact H2 | exact Hp].
Defined.

(** ** The options of a preload *)

(** X17: [preloadNativeUIComponentAdView] reads only the four fields
    placement, customData, extraParameters and localExtraParameters of
    its options: two option values that agree on these four -- such as
    no options at all and an object without any of them, or objects that
    differ in other keys -- lead to the same native call and the same
    result. *)
Theorem preload_reads_four_options {V E : Type}
    (native : Bridge.NativeModule (V := V) (E := E))
    (calls : list Bridge.NativeCall)
    (adUnitId : string) (adFormat : AdFormat)
    (options1 options2 : option (gmap string V)) :
  (∀ key, key ∈ preloadOptionKeys →
          Bridge.optional options1 key = Bridge.optional options2 key) →
  Bridge.preloadNativeUIComponentAdView adUnitId adFormat options1 native calls
  = Bridge.preloadNativeUIComponentAdView adUnitId adFormat options2 native
      calls.
Proof.
  intros H. unfold Bridge.preloadNativeUIComponentAdView.
  rewrite (H "placement"), (H "customData"), (H "extraParameters"),
    (H "localExtraParameters"); [done | | | |];
    unfold preloadOptionKeys; repeat constructor.
Qed.

Lemma preload_reads_four_options_witness :
  let native : Bridge.NativeModule (V := Value) (E := string) :=
    λ _, Bridge.Fulfilled in
  Bridge.preloadNativeUIComponentAdView "unit" MREC None native []
  = Bridge.preloadNativeUIComponentAdView "unit" MREC
      (Some {["color" := VStr "red"]}) native [].
Proof.
  intros native.
  apply (preload_reads_four_options native [] "unit" MREC None
           (Some {["color" := VStr "red"]})).
  intros key Hkey. unfold preloadOptionKeys in Hkey. cbn [Bridge.optional].
  symmetry. apply lookup_singleton_ne. intros <-.
  repeat (apply elem_of_cons in Hkey as [Hkey | Hkey]; [done |]).
  by apply elem_of_nil in Hkey.
Defined.
